(** * Sentiment pipeline: scorer, chunker, ledger, orchestrator and locator

    A shallow embedding of the Python modules [finbert_analyzer.py],
    [state_tracker.py] and [unified_app.py].  Numbers the Python code keeps
    as floats are modelled as exact rationals [Q]; [round(x, 3)] is the
    round-half-to-even of [x] to three decimals.  Texts are ASCII strings:
    [str.lower], [str.upper] and [str.split] are modelled on characters
    0..127 (plus the Latin-1 blanks that [str.split] treats as separators). *)

From stdpp Require Import base list strings gmap sorting.
From Stdlib Require Import Ascii QArith Qround Qabs Lqa Lia.

Open Scope string_scope.
Open Scope nat_scope.

(* ------------------------------------------------------------------ *)
(** ** Text helpers: the [str] methods the code relies on *)
(* ------------------------------------------------------------------ *)
Module Text.

(** [str.isspace] on the characters a Python [str] may hold in 0..255. *)
Definition is_ws (c : Ascii.ascii) : bool :=
  let n := Ascii.nat_of_ascii c in
  (Nat.eqb n 32) || ((9 <=? n) && (n <=? 13)) || ((28 <=? n) && (n <=? 31))
  || Nat.eqb n 133 || Nat.eqb n 160.

(** [s.split()]: split on runs of whitespace, dropping empty words.
    [cur] holds the word being read. *)
Fixpoint split_aux (s : string) (cur : string) : list string :=
  match s with
  | EmptyString => match cur with EmptyString => [] | _ => [cur] end
  | String c s' =>
      if is_ws c then
        match cur with
        | EmptyString => split_aux s' EmptyString
        | _ => cur :: split_aux s' EmptyString
        end
      else split_aux s' (String.append cur (String c EmptyString))
  end.

Definition py_split (s : string) : list string := split_aux s EmptyString.

(** [s.strip() != ""]: the string has a non-blank character. *)
Fixpoint has_non_ws (s : string) : bool :=
  match s with
  | EmptyString => false
  | String c s' => negb (is_ws c) || has_non_ws s'
  end.

(** every character of [s] satisfies [f] ([all(f(c) for c in s)]) *)
Fixpoint forall_chars (f : Ascii.ascii -> bool) (s : string) : bool :=
  match s with
  | EmptyString => true
  | String c s' => f c && forall_chars f s'
  end.

(** [' '.join(ws)] *)
Definition join (ws : list string) : string := String.concat " " ws.

(** [ws[a:b]] for [0 <= a <= b]. *)
Definition slice {A} (ws : list A) (a b : nat) : list A :=
  take (b - a) (drop a ws).

Definition lower_char (c : Ascii.ascii) : Ascii.ascii :=
  let n := Ascii.nat_of_ascii c in
  if (65 <=? n) && (n <=? 90) then Ascii.ascii_of_nat (n + 32) else c.

Definition upper_char (c : Ascii.ascii) : Ascii.ascii :=
  let n := Ascii.nat_of_ascii c in
  if (97 <=? n) && (n <=? 122) then Ascii.ascii_of_nat (n - 32) else c.

Fixpoint map_chars (f : Ascii.ascii -> Ascii.ascii) (s : string) : string :=
  match s with
  | EmptyString => EmptyString
  | String c s' => String (f c) (map_chars f s')
  end.

(** [s.lower()] and [s.upper()] *)
Definition lower (s : string) : string := map_chars lower_char s.
Definition upper (s : string) : string := map_chars upper_char s.

(** [s.startswith(p)], by recursion on [p] *)
Fixpoint is_prefix (p s : string) : bool :=
  match p, s with
  | EmptyString, _ => true
  | String _ _, EmptyString => false
  | String a p', String b s' => Ascii.eqb a b && is_prefix p' s'
  end.

(** [p in s] for strings *)
Fixpoint contains (p s : string) : bool :=
  is_prefix p s ||
  match s with
  | EmptyString => false
  | String _ s' => contains p s'
  end.

Definition startswith (s p : string) : bool := is_prefix p s.

(** [s[n:]] *)
Fixpoint drop_chars (n : nat) (s : string) : string :=
  match n, s with
  | O, _ => s
  | S n', String _ s' => drop_chars n' s'
  | S _, EmptyString => EmptyString
  end.

(** the characters of [s] before its first ['\n'] *)
Fixpoint take_line (s : string) : string :=
  match s with
  | EmptyString => EmptyString
  | String c s' =>
      if Ascii.eqb c (Ascii.ascii_of_nat 10) then EmptyString
      else String c (take_line s')
  end.

End Text.

(* ------------------------------------------------------------------ *)
(** ** [FinBERTAnalyzer._chunk_text] *)
(* ------------------------------------------------------------------ *)
Module Chunker.
Import Text.

(** [words_per_chunk = int(max_tokens * 0.75)], [overlap = int(words_per_chunk * 0.1)] *)
Definition words_per_chunk (max_tokens : nat) : nat := (max_tokens * 3) / 4.
Definition overlap (max_tokens : nat) : nat := words_per_chunk max_tokens / 10.

(** The [while start < len(words)] loop; [fuel] bounds the iterations. *)
Fixpoint chunk_loop (fuel : nat) (words : list string) (wpc ov start : nat)
  : list string :=
  match fuel with
  | O => []
  | S fuel' =>
      if start <? length words then
        let end_ := Nat.min (start + wpc) (length words) in
        let chunk := join (slice words start end_) in
        let start' := if end_ <? length words then end_ - ov else length words in
        let rest := chunk_loop fuel' words wpc ov start' in
        if has_non_ws chunk then chunk :: rest else rest
      else []
  end.

Definition chunk_text_max (text : string) (max_tokens : nat) : list string :=
  let words := py_split text in
  let chunks := chunk_loop (S (length words)) words
                  (words_per_chunk max_tokens) (overlap max_tokens) 0 in
  match chunks with
  | [] => [String.substring 0 2000 text]
  | _ => chunks
  end.

(** [_chunk_text(text)] with its default [max_tokens = 450]. *)
Definition chunk_text (text : string) : list string := chunk_text_max text 450.

End Chunker.


(* ------------------------------------------------------------------ *)
(** ** [FinBERTAnalyzer]: scores, lexicon, guidance, risk, composite *)
(* ------------------------------------------------------------------ *)
Module Scorer.
Import Text Chunker.
Local Open Scope Q_scope.

(** [round(x, 3)]: nearest multiple of 0.001, ties to the even one. *)
Definition round3 (x : Q) : Q :=
  let y := x * 1000 in
  let f := Qfloor y in
  let d := y - inject_Z f in
  if negb (Qle_bool (1#2) d) then inject_Z f / 1000
  else if negb (Qeq_bool d (1#2)) then inject_Z (f + 1) / 1000
  else if Z.even f then inject_Z f / 1000 else inject_Z (f + 1) / 1000.

(** Python's [x > y] and [x < y] on numbers. *)
Definition gtb (x y : Q) : bool := negb (Qle_bool x y).
Definition ltb (x y : Q) : bool := negb (Qle_bool y x).

(** [min(a, b)] and [max(a, b)]: the first argument unless the second is
    strictly smaller (larger). *)
Definition py_min (a b : Q) : Q := if ltb b a then b else a.
Definition py_max (a b : Q) : Q := if gtb b a then b else a.

(** The dictionary returned by [analyze_text_finbert] and
    [_analyze_text_textblob]. *)
Record ScoreVector := {
  positive : Q; negative : Q; neutral : Q; compound_score : Q }.

(** The dictionary returned by [analyze_transcript]. *)
Record Analysis := {
  finbert_score : Q; finbert_positive : Q; finbert_negative : Q;
  finbert_neutral : Q; keyword_sentiment : Q; guidance : Q; risk : Q;
  overall_sentiment : Q }.

Definition positive_keywords : list string :=
  ["strong"; "growth"; "improve"; "excellent"; "success"; "expand";
   "opportunity"; "robust"; "resilient"; "positive"; "outperform";
   "beat"; "exceed"; "momentum"; "strength"; "record"; "surge";
   "optimistic"; "confident"; "upgrade"; "bullish"]%string.

Definition negative_keywords : list string :=
  ["weak"; "decline"; "challenge"; "pressure"; "concern"; "risk";
   "uncertain"; "difficult"; "headwind"; "negative"; "underperform";
   "miss"; "delay"; "slow"; "struggle"; "downturn"; "volatile";
   "cautious"; "bearish"; "downgrade"]%string.

Definition mem (w : string) (l : list string) : bool := existsb (String.eqb w) l.

(** [get_keyword_sentiment] *)
Definition get_keyword_sentiment (text : string) : Q :=
  let words := py_split (lower text) in
  let pos_count := length (List.filter (fun w => mem w positive_keywords) words) in
  let neg_count := length (List.filter (fun w => mem w negative_keywords) words) in
  let total := (pos_count + neg_count)%nat in
  if Nat.eqb total 0 then 0
  else
    let score := (inject_Z (Z.of_nat pos_count) - inject_Z (Z.of_nat neg_count))
                 / inject_Z (Z.of_nat total) in
    round3 (py_max (-1) (py_min 1 score)).

(** The regular expressions of [detect_guidance]: a literal, or [a.*b]
    where [.] matches any character but a newline. *)
Inductive pattern := Lit (p : string) | DotStar (a b : string).

Fixpoint search_dotstar (a b s : string) : bool :=
  (is_prefix a s && contains b (take_line (drop_chars (String.length a) s)))
  || match s with
     | EmptyString => false
     | String _ s' => search_dotstar a b s'
     end.

(** [re.search(p, s) is not None] *)
Definition re_search (p : pattern) (s : string) : bool :=
  match p with
  | Lit l => contains l s
  | DotStar a b => search_dotstar a b s
  end.

Definition positive_patterns : list pattern :=
  [DotStar "rais" "guidance"; DotStar "upgrad" "guidance";
   DotStar "exceed" "expectation"; DotStar "beat" "estimate";
   DotStar "above" "consensus"; DotStar "stronger" "outlook";
   DotStar "increas" "forecast"; DotStar "revis" "upward"]%string.

Definition negative_patterns : list pattern :=
  [DotStar "lower" "guidance"; DotStar "cut" "guidance";
   DotStar "miss" "expectation"; DotStar "below" "estimate";
   DotStar "weaker" "outlook"; DotStar "decreas" "forecast";
   DotStar "revis" "downward"; Lit "disappoint"]%string.

Definition pos_matches (text : string) : nat :=
  length (List.filter (fun p => re_search p (lower text)) positive_patterns).
Definition neg_matches (text : string) : nat :=
  length (List.filter (fun p => re_search p (lower text)) negative_patterns).

(** [detect_guidance] *)
Definition detect_guidance (text : string) : Q :=
  let pm := pos_matches text in
  let nm := neg_matches text in
  if Nat.ltb nm pm then 1
  else if Nat.ltb pm nm then -1
  else 0.

(** [s.count(p)]: non-overlapping occurrences, scanning left to right;
    [skip] characters of the last match are still to be passed over. *)
Fixpoint count_aux (p : string) (skip : nat) (s : string) : nat :=
  match s with
  | EmptyString => 0
  | String _ s' =>
      match skip with
      | S k => count_aux p k s'
      | O => if is_prefix p s
             then S (count_aux p (Nat.pred (String.length p)) s')
             else count_aux p O s'
      end
  end.
Definition str_count (s p : string) : nat := count_aux p O s.

Definition risk_terms : list string :=
  ["risk"; "uncertain"; "volatile"; "challenge"; "headwind";
   "concern"; "threat"; "exposure"; "vulnerability"]%string.

(** [calculate_risk_score] *)
Definition calculate_risk_score (text : string) : Q :=
  let text_lower := lower text in
  let word_count := length (py_split text_lower) in
  if Nat.eqb word_count 0 then 0
  else
    let risk_count := fold_right (fun t acc => (str_count text_lower t + acc)%nat)
                        O risk_terms in
    let risk_score := inject_Z (Z.of_nat risk_count)
                      / inject_Z (Z.of_nat word_count) * 1000 in
    round3 (py_min 1 (risk_score / 10)).

(** [\w] on the characters 0..255: [str.isalnum()] or ['_']. *)
Definition is_word_char (c : Ascii.ascii) : bool :=
  let n := Ascii.nat_of_ascii c in
  ((48 <=? n) && (n <=? 57))%nat || ((65 <=? n) && (n <=? 90))%nat
  || ((97 <=? n) && (n <=? 122))%nat || Nat.eqb n 95
  || Nat.eqb n 170 || Nat.eqb n 178 || Nat.eqb n 179 || Nat.eqb n 181
  || Nat.eqb n 185 || Nat.eqb n 186 || ((188 <=? n) && (n <=? 190))%nat
  || (((192 <=? n) && (n <=? 255))%nat && negb (Nat.eqb n 215) && negb (Nat.eqb n 247)).

(** the punctuation kept by [clean_text]: full stop, comma, [!], [?],
    [;], [:], [-], apostrophe and double quote *)
Definition is_kept_punct (c : Ascii.ascii) : bool :=
  existsb (fun n => Nat.eqb (Ascii.nat_of_ascii c) n) [46; 44; 33; 63; 59; 58; 45; 39; 34]%nat.

(** [re.sub(r'\s+', ' ', s)]; [prev] is set inside a whitespace run. *)
Fixpoint collapse_ws (prev : bool) (s : string) : string :=
  match s with
  | EmptyString => EmptyString
  | String c s' =>
      if is_ws c then
        if prev then collapse_ws true s' else String (Ascii.ascii_of_nat 32) (collapse_ws true s')
      else String c (collapse_ws false s')
  end.

(** the second [re.sub] of [clean_text]: drop every character that is
    neither [\w], [\s] nor kept punctuation *)
Fixpoint keep_safe (s : string) : string :=
  match s with
  | EmptyString => EmptyString
  | String c s' =>
      if is_word_char c || is_ws c || is_kept_punct c
      then String c (keep_safe s') else keep_safe s'
  end.

Fixpoint lstrip (s : string) : string :=
  match s with
  | EmptyString => EmptyString
  | String c s' => if is_ws c then lstrip s' else s
  end.

Fixpoint rstrip (s : string) : string :=
  match s with
  | EmptyString => EmptyString
  | String c s' =>
      let r := rstrip s' in
      if is_ws c && String.eqb r "" then EmptyString else String c r
  end.

(** [clean_text] *)
Definition clean_text (text : string) : string :=
  rstrip (lstrip (keep_safe (collapse_ws false text))).

(** [np.mean] of one column *)
Definition mean (xs : list Q) : Q :=
  fold_right Qplus 0 xs / inject_Z (Z.of_nat (length xs)).

Definition too_short (text : string) (n : nat) : bool :=
  String.eqb text "" || Nat.ltb (length (py_split text)) n.

Section Model.
(** [FINBERT_AVAILABLE]: whether the transformer stack imported. *)
Variable use_finbert : bool.
(** [softmax(model(chunk).logits)[0]] as (positive, negative, neutral). *)
Variable finbert_probs : string -> Q * Q * Q.
(** [TextBlob(text).sentiment.polarity] *)
Variable polarity : string -> Q.

(** [_analyze_text_textblob] *)
Definition analyze_text_textblob (text : string) : ScoreVector :=
  if too_short text 20 then
    {| positive := 33#100; negative := 33#100; neutral := 34#100;
       compound_score := 0 |}
  else
    let p := polarity text in
    let '(pos, neg, neu) :=
      if gtb p 0 then
        let pos := (1#2) + p * (1#2) in
        let neg := 1#10 in
        (pos, neg, 1 - pos - neg)
      else if ltb p 0 then
        let neg := (1#2) + Qabs p * (1#2) in
        let pos := 1#10 in
        (pos, neg, 1 - pos - neg)
      else (1#4, 1#4, 1#2) in
    {| positive := round3 pos; negative := round3 neg;
       neutral := round3 neu; compound_score := round3 p |}.

(** [analyze_text_finbert]: mean of the per-chunk distributions. *)
Definition analyze_text_finbert (text : string) : ScoreVector :=
  if negb use_finbert then analyze_text_textblob text
  else
    let all_scores := map finbert_probs (chunk_text text) in
    let p := mean (map (fun v => v.1.1) all_scores) in
    let n := mean (map (fun v => v.1.2) all_scores) in
    let u := mean (map (fun v => v.2) all_scores) in
    {| positive := p; negative := n; neutral := u;
       compound_score := round3 (p - n) |}.

Definition neutral_defaults : Analysis :=
  {| finbert_score := 0; finbert_positive := 33#100;
     finbert_negative := 33#100; finbert_neutral := 34#100;
     keyword_sentiment := 0; guidance := 0; risk := 0;
     overall_sentiment := 0 |}.

(** [analyze_transcript] *)
Definition analyze_transcript (text : string) : Analysis :=
  if too_short text 50 then neutral_defaults
  else
    let cleaned := clean_text text in
    let fr := analyze_text_finbert cleaned in
    let k := get_keyword_sentiment cleaned in
    let g := detect_guidance cleaned in
    let r := calculate_risk_score cleaned in
    let overall := compound_score fr * (50#100) + k * (30#100) + g * (20#100) in
    {| finbert_score := compound_score fr; finbert_positive := positive fr;
       finbert_negative := negative fr; finbert_neutral := neutral fr;
       keyword_sentiment := k; guidance := g; risk := r;
       overall_sentiment := round3 overall |}.
End Model.

End Scorer.


(* ------------------------------------------------------------------ *)
(** ** [StateTracker]: the processing ledger *)
(* ------------------------------------------------------------------ *)
Module Ledger.
Import Text.

(** [{'timestamp': ..., 'metadata': ...}] *)
Record Entry := { timestamp : string; metadata : list (string * Q) }.

(** [state['processed']]: [{COMPANY: {quarter: entry}}]; a missing
    ['processed'] key reads as the empty map, as with [.get('processed', {})]. *)
Abbreviation Processed := (gmap string (gmap string Entry)).

(** [is_processed(company, quarter)] *)
Definition is_processed (L : Processed) (company quarter : string) : bool :=
  match L !! upper company with
  | Some company_state =>
      match company_state !! quarter with Some _ => true | None => false end
  | None => false
  end.

(** [mark_processed(company, quarter, metadata)]; [now] is the value of
    [datetime.now().isoformat()] at the call. *)
Definition mark_processed (L : Processed) (company quarter now : string)
    (md : option (list (string * Q))) : Processed :=
  let company_upper := upper company in
  let company_state := match L !! company_upper with Some m => m | None => ∅ end in
  let entry := {| timestamp := now;
                  metadata := match md with Some m => m | None => [] end |} in
  <[company_upper := <[quarter := entry]> company_state]> L.

(** the stored entry of a (company, quarter) pair *)
Definition entry_of (L : Processed) (company quarter : string) : option Entry :=
  match L !! upper company with
  | Some company_state => company_state !! quarter
  | None => None
  end.

End Ledger.

(* ------------------------------------------------------------------ *)
(** ** [StateTracker]: statistics, batches, queries and resets *)
(* ------------------------------------------------------------------ *)
Module Tracker.
Import Text Ledger.

(** [state['stats']] *)
Record Stats := { total_processed : nat; total_companies : nat }.

(** [{'timestamp': ..., 'stats': stats or {}}] of [record_run] *)
Record RunInfo := { run_timestamp : string; run_stats : list (string * Q) }.

(** [self.state] *)
Record State := {
  processed : Processed;
  last_full_run : option RunInfo;
  last_incremental_run : option RunInfo;
  stats : Stats }.

(** the state of [_load_state] when there is no state file *)
Definition empty_state : State :=
  {| processed := ∅; last_full_run := None; last_incremental_run := None;
     stats := {| total_processed := 0; total_companies := 0 |} |}.

(** [sum(len(quarters) for quarters in processed.values())] *)
Definition total_items (P : Processed) : nat :=
  map_fold (fun _ (qs : gmap string Entry) acc => size qs + acc) 0 P.

(** [_update_stats] *)
Definition update_stats (P : Processed) : Stats :=
  {| total_processed := total_items P; total_companies := size P |}.

(** [self.state['processed']] replaced by [P], then [_update_stats()] *)
Definition with_processed (S : State) (P : Processed) : State :=
  {| processed := P; last_full_run := last_full_run S;
     last_incremental_run := last_incremental_run S; stats := update_stats P |}.

(** [mark_processed], with the [_update_stats] it ends with *)
Definition st_mark_processed (S : State) (company quarter now : string)
    (md : option (list (string * Q))) : State :=
  with_processed S (mark_processed (processed S) company quarter now md).

(** the loop of [mark_batch_processed]: an item is
    [(company, quarter, metadata)] together with the value of
    [datetime.now().isoformat()] in its turn *)
Fixpoint batch_loop (P : Processed)
    (items : list (string * string * option (list (string * Q)) * string)) : Processed :=
  match items with
  | [] => P
  | (company, quarter, md, now) :: items' =>
      let company_upper := upper company in
      let company_state := match P !! company_upper with Some m => m | None => ∅ end in
      let entry := {| timestamp := now;
                      metadata := match md with Some m => m | None => [] end |} in
      batch_loop (<[company_upper := <[quarter := entry]> company_state]> P) items'
  end.

(** [mark_batch_processed(items)] *)
Definition mark_batch_processed (S : State)
    (items : list (string * string * option (list (string * Q)) * string)) : State :=
  with_processed S (batch_loop (processed S) items).

(** [get_unprocessed(available)] *)
Definition get_unprocessed (S : State) (available : list (string * string))
    : list (string * string) :=
  List.filter (fun '(company, quarter) => negb (is_processed (processed S) company quarter))
    available.

(** [clear_company(company)] *)
Definition clear_company (S : State) (company : string) : State :=
  let company_upper := upper company in
  match processed S !! company_upper with
  | Some _ => with_processed S (delete company_upper (processed S))
  | None => S
  end.

(** [clear_all()] *)
Definition clear_all (S : State) : State := empty_state.

(** [record_run(run_type, stats)]; [now] is [datetime.now().isoformat()] *)
Definition record_run (S : State) (run_type now : string)
    (st : option (list (string * Q))) : State :=
  let info := {| run_timestamp := now;
                 run_stats := match st with Some m => m | None => [] end |} in
  if String.eqb run_type "full" then
    {| processed := processed S; last_full_run := Some info;
       last_incremental_run := last_incremental_run S; stats := stats S |}
  else
    {| processed := processed S; last_full_run := last_full_run S;
       last_incremental_run := Some info; stats := stats S |}.

(** [self.state.get('processed', {}).get(company.upper(), {})]; the
    iteration order of a dict is modelled by [map_to_list] *)
Definition company_quarters (S : State) (company : string) : gmap string Entry :=
  match processed S !! upper company with Some qs => qs | None => ∅ end.

(** [get_processed_quarters(company)] *)
Definition get_processed_quarters (S : State) (company : string) : list string :=
  map fst (map_to_list (company_quarters S company)).

(** [max(xs, default=None)] on strings: the running maximum is replaced
    by a later item only when that item is greater *)
Definition py_max_str (xs : list string) : option string :=
  fold_left (fun acc x => match acc with
                          | None => Some x
                          | Some m => if String.ltb m x then Some x else Some m
                          end) xs None.

(** the dict returned by [get_company_status] *)
Record CompanyStatus := {
  cs_company : string; cs_quarters_processed : nat; cs_quarters : list string;
  cs_last_processed : option string }.

(** [get_company_status(company)] *)
Definition get_company_status (S : State) (company : string) : CompanyStatus :=
  let quarters := company_quarters S company in
  {| cs_company := upper company;
     cs_quarters_processed := size quarters;
     cs_quarters := map fst (map_to_list quarters);
     cs_last_processed :=
       if Nat.eqb (size quarters) 0 then None
       else py_max_str (map (fun '(_, q) => timestamp q) (map_to_list quarters)) |}.

(** the key [x['quarters']] of [company_stats.sort(..., reverse=True)]:
    [a] may precede [b] when it has at least as many quarters *)
Definition quarters_ge (a b : string * nat) : Prop := (b.2 <= a.2)%nat.
Global Instance quarters_ge_dec : RelDecision quarters_ge :=
  fun a b => decide (b.2 <= a.2)%nat.

(** the dict returned by [get_summary]; a company stat is
    [(company, quarters)] *)
Record Summary := {
  sm_total_companies : nat; sm_total_quarters : nat;
  sm_top_companies : list (string * nat);
  sm_last_full_run : option string; sm_last_incremental_run : option string }.

(** [get_summary()]; the sort is stable, as Python's *)
Definition get_summary (S : State) : Summary :=
  let P := processed S in
  let company_stats := map (fun '(company, quarters) => (company, size quarters))
                         (map_to_list P) in
  let sorted := merge_sort quarters_ge company_stats in
  {| sm_total_companies := size P;
     sm_total_quarters := list_sum (map (fun '(_, q) => size q) (map_to_list P));
     sm_top_companies := take 10 sorted;
     sm_last_full_run := option_map run_timestamp (last_full_run S);
     sm_last_incremental_run := option_map run_timestamp (last_incremental_run S) |}.

(** one call of a public method of [StateTracker] that changes
    [self.state]; [_save_state] only writes the state out *)
Inductive tracker_step : State -> State -> Prop :=
| ts_mark S company quarter now md :
    tracker_step S (st_mark_processed S company quarter now md)
| ts_batch S items : tracker_step S (mark_batch_processed S items)
| ts_clear_company S company : tracker_step S (clear_company S company)
| ts_clear_all S : tracker_step S (clear_all S)
| ts_record_run S run_type now st : tracker_step S (record_run S run_type now st).

End Tracker.

(* ------------------------------------------------------------------ *)
(** ** [AnalysisEngine]: per-company analysis, flush, incremental run *)
(* ------------------------------------------------------------------ *)
Module Engine.
Import Text Scorer Ledger.
Local Open Scope Q_scope.

(** a transcript reference: [{'url', 'month', 'year', 'quarter'}] *)
Record Transcript := {
  t_url : string; t_month : string; t_year : string; t_quarter : string }.

(** A value of the sheet's [Company] or [Year] column as pandas holds it:
    a [str], or an [int] (a number cell of the workbook, or text that
    [pd.read_excel] reads as a number). *)
Inductive Cell := CStr (s : string) | CInt (z : Z).

(** Python's [==] on such values: an [int] never equals a [str] *)
Definition cell_eqb (a b : Cell) : bool :=
  match a, b with
  | CStr x, CStr y => String.eqb x y
  | CInt x, CInt y => Z.eqb x y
  | _, _ => false
  end.

(** the order in which [sort_values] ranks a column's values: the
    categories of [Categorical(column, ordered=True)], sorted by pandas'
    [safe_sort], which puts the numbers before the strings when a column
    mixes both *)
Definition cell_compare (a b : Cell) : comparison :=
  match a, b with
  | CInt x, CInt y => Z.compare x y
  | CStr x, CStr y => String.compare x y
  | CInt _, CStr _ => Lt
  | CStr _, CInt _ => Gt
  end.

(** one row of the 'Quarterly Sentiment' sheet; [r_category] is the
    ['Sentiment_Category'] column (empty in a freshly built result).  The
    other text columns stay [str] when read back: [Month] holds only
    month names or ['Unknown'], and [Sector], [Analyzed_At] and
    [Sentiment_Category] take part in no comparison. *)
Record Row := {
  r_company : Cell; r_sector : string; r_year : Cell; r_month : string;
  r_overall : Q; r_polarity : Q; r_keyword : Q; r_guidance : Q; r_risk : Q;
  r_pos : Q; r_neg : Q; r_neu : Q; r_file_count : nat;
  r_analyzed_at : string; r_category : string }.

(** [lambda x: 'Positive' if x > 0.2 else ('Negative' if x < -0.1 else 'Neutral')]
    of [save_results] *)
Definition sentiment_category (x : Q) : string :=
  if gtb x (2#10) then "Positive" else if ltb x (-1#10) then "Negative" else "Neutral".

(** the ['category'] expression of [api_upload_pdfs] *)
Definition api_upload_category (overall : Q) : string :=
  if gtb overall (2#10) then "Positive"
  else if ltb overall (-1#10) then "Negative" else "Neutral".

Definition set_category (r : Row) : Row :=
  {| r_company := r_company r; r_sector := r_sector r; r_year := r_year r;
     r_month := r_month r; r_overall := r_overall r; r_polarity := r_polarity r;
     r_keyword := r_keyword r; r_guidance := r_guidance r; r_risk := r_risk r;
     r_pos := r_pos r; r_neg := r_neg r; r_neu := r_neu r;
     r_file_count := r_file_count r; r_analyzed_at := r_analyzed_at r;
     r_category := sentiment_category (r_overall r) |}.

(** [(row['Company'], row['Year'], row['Month'])] *)
Definition key (r : Row) : Cell * Cell * string := (r_company r, r_year r, r_month r).

(** [==] on such tuples *)
Definition key_eqb (k1 k2 : Cell * Cell * string) : bool :=
  cell_eqb k1.1.1 k2.1.1 && cell_eqb k1.1.2 k2.1.2 && String.eqb k1.2 k2.2.

(** [key in [(r['Company'], r['Year'], r['Month']) for r in rs]] *)
Definition key_in (k : Cell * Cell * string) (rs : list Row) : bool :=
  existsb (fun r => key_eqb k (key r)) rs.

(** the value of a string of ASCII digits *)
Fixpoint digits_Z (acc : Z) (s : string) : option Z :=
  match s with
  | EmptyString => Some acc
  | String c t =>
      let n := Ascii.nat_of_ascii c in
      if (48 <=? n)%nat && (n <=? 57)%nat then digits_Z (acc * 10 + Z.of_nat (n - 48))%Z t
      else None
  end.

(** the integers among the texts [pd.read_excel] infers as numbers: an
    optional minus sign and at least one digit (the code writes no other
    numeric spelling, such as a decimal point, into these columns) *)
Definition read_int (s : string) : option Z :=
  match s with
  | EmptyString => None
  | String c t =>
      if Ascii.eqb c "-"%char then
        match t with EmptyString => None | _ => option_map Z.opp (digits_Z 0 t) end
      else digits_Z 0 s
  end.

Definition cell_numeric (c : Cell) : bool :=
  match c with
  | CInt _ => true
  | CStr s => match read_int s with Some _ => true | None => false end
  end.

Definition read_cell (c : Cell) : Cell :=
  match c with
  | CStr s => match read_int s with Some z => CInt z | None => c end
  | CInt _ => c
  end.

Definition with_key_cells (r : Row) (company year : Cell) : Row :=
  {| r_company := company; r_sector := r_sector r; r_year := year;
     r_month := r_month r; r_overall := r_overall r; r_polarity := r_polarity r;
     r_keyword := r_keyword r; r_guidance := r_guidance r; r_risk := r_risk r;
     r_pos := r_pos r; r_neg := r_neg r; r_neu := r_neu r;
     r_file_count := r_file_count r; r_analyzed_at := r_analyzed_at r;
     r_category := r_category r |}.

(** [_load_existing_data()] on the sheet [D] as written ([[]] when there
    is no file): [pd.read_excel] infers each column's type, so a
    [Company] or [Year] column whose values all read as numbers comes
    back as [int]; a column with any other text keeps its values. *)
Definition load_existing_data (D : list Row) : list Row :=
  let company_numeric := forallb cell_numeric (map r_company D) in
  let year_numeric := forallb cell_numeric (map r_year D) in
  map (fun r => with_key_cells r
                  (if company_numeric then read_cell (r_company r) else r_company r)
                  (if year_numeric then read_cell (r_year r) else r_year r)) D.

(** [month_map], read through [.map]: [None] is NaN *)
Definition month_num (m : string) : option nat :=
  let months := ["Jan"; "Feb"; "Mar"; "Apr"; "May"; "Jun";
                 "Jul"; "Aug"; "Sep"; "Oct"; "Nov"; "Dec"]%string in
  let fix find (ms : list string) (i : nat) : option nat :=
    match ms with
    | [] => None
    | m' :: ms' => if String.eqb m m' then Some i else find ms' (S i)
    end in
  find months 1%nat.

(** the order of [sort_values(['Company', 'Year', 'Month_Num'],
    ascending=[True, False, False])], NaN last *)
Definition row_le (a b : Row) : bool :=
  match cell_compare (r_company a) (r_company b) with
  | Lt => true
  | Gt => false
  | Eq =>
      match cell_compare (r_year a) (r_year b) with
      | Gt => true
      | Lt => false
      | Eq =>
          match month_num (r_month a), month_num (r_month b) with
          | Some x, Some y => (y <=? x)%nat
          | Some _, None => true
          | None, Some _ => false
          | None, None => true
          end
      end
  end.

Definition row_R (a b : Row) : Prop := row_le a b = true.
Global Instance row_R_dec : RelDecision row_R :=
  fun a b => decide (row_le a b = true).

(** [save_results(new_results, mode='append')] on the sheet [existing]
    as last written; the result is the sheet written back. *)
Definition save_results (existing new_results : list Row) : list Row :=
  match new_results with
  | [] => existing
  | _ =>
      let existing_df := load_existing_data existing in
      let final := match existing_df with
                   | [] => new_results
                   | _ => (List.filter (fun r => negb (key_in (key r) new_results)) existing_df
                          ++ new_results)%list
                   end in
      merge_sort row_R (map set_category final)
  end.

Section Env.
(** [CloudTranscriptFetcher.get_transcript_urls] *)
Variable get_transcript_urls : string -> list Transcript.
(** [FinBERTAnalyzer.extract_pdf_from_url] *)
Variable extract_pdf_from_url : string -> option string.
(** [FinBERTAnalyzer.analyze_transcript] (the scorer above, for a
    fixed model) *)
Variable analyze : string -> Analysis.
(** [company_mgr.get_company(code)['industry']] when known *)
Variable get_company : string -> option string.
(** [datetime.now().isoformat()] *)
Variable now : string.

Definition build_row (code sector : string) (t : Transcript) (a : Analysis) : Row :=
  {| r_company := CStr code; r_sector := sector; r_year := CStr (t_year t);
     r_month := t_month t; r_overall := overall_sentiment a;
     r_polarity := finbert_score a; r_keyword := keyword_sentiment a;
     r_guidance := guidance a; r_risk := risk a;
     r_pos := finbert_positive a; r_neg := finbert_negative a;
     r_neu := finbert_neutral a; r_file_count := 1%nat;
     r_analyzed_at := now; r_category := "" |}.




Record RunResult := {
  new_quarters : nat; ledger : Processed; dataset : list Row }.

End Env.

End Engine.

(* ------------------------------------------------------------------ *)
(** ** The orchestrator with the scoring exceptions it catches *)
(* ------------------------------------------------------------------ *)
(** [Engine] treats [analyze_transcript] as total; here it may raise (the
    FinBERT model call has no [try]), and [run_incremental] catches the
    exception per company with its [except Exception] branch. *)
Module EngineExc.
Import Text Scorer Ledger Engine.

Section Env.
Variable get_transcript_urls : string -> list Transcript.
Variable extract_pdf_from_url : string -> option string.
(** [analyze_transcript]: [None] when it raises *)
Variable analyze : string -> option Analysis.
Variable get_company : string -> option string.
Variable now : string.

(** the [for transcript in transcripts] loop of [analyze_company]: [None]
    when an exception leaves it; the ledger keeps the marks made before *)
Fixpoint analyze_loop_exc (code sector : string) (force : bool)
    (ts : list Transcript) (L : Processed) : option (list Row) * Processed :=
  match ts with
  | [] => (Some [], L)
  | t :: ts' =>
      if negb force && is_processed L code (t_quarter t) then
        analyze_loop_exc code sector force ts' L
      else
        match extract_pdf_from_url (t_url t) with
        | None => analyze_loop_exc code sector force ts' L
        | Some text =>
            if too_short text 100 then analyze_loop_exc code sector force ts' L
            else
              match analyze text with
              | None => (None, L)
              | Some a =>
                  let L1 := mark_processed L code (t_quarter t) now
                              (Some [("sentiment", overall_sentiment a)]%string) in
                  let '(ors, L2) := analyze_loop_exc code sector force ts' L1 in
                  (option_map (cons (build_row now code sector t a)) ors, L2)
              end
        end
  end.

(** [analyze_company(nse_code, force)] *)
Definition analyze_company_exc (L : Processed) (code : string) (force : bool)
    : option (list Row) * Processed :=
  let sector := match get_company code with Some s => s | None => "Unknown" end in
  match get_transcript_urls code with
  | [] => (Some [], L)
  | ts => analyze_loop_exc code sector force ts L
  end.

(** the company loop of [run_incremental], with its [try]/[except] *)
Fixpoint run_loop_exc (i : nat) (cs : list string) (L : Processed) (D : list Row)
    (acc : list Row) : list Row * Processed * list Row :=
  match cs with
  | [] => (acc, L, D)
  | c :: cs' =>
      match analyze_company_exc L c false with
      | (None, L1) => run_loop_exc (S i) cs' L1 D acc
      | (Some [], L1) => run_loop_exc (S i) cs' L1 D acc
      | (Some rs, L1) =>
          let acc' := (acc ++ rs)%list in
          let D' := if Nat.eqb (Nat.modulo i 10) 0 then save_results D acc' else D in
          run_loop_exc (S i) cs' L1 D' acc'
      end
  end.

(** [run_incremental(companies)] *)
Definition run_incremental_exc (L : Processed) (D : list Row) (cs : list string)
    : RunResult :=
  let '(acc, L', D') := run_loop_exc 1%nat cs L D [] in
  let D'' := match acc with [] => D' | _ => save_results D' acc end in
  {| new_quarters := length acc; ledger := L'; dataset := D'' |}.
End Env.

End EngineExc.

(* ------------------------------------------------------------------ *)
(** ** Document locator: the link filter of [get_transcript_urls] *)
(* ------------------------------------------------------------------ *)
Module Fetcher.
Import Text.

Definition base_url : string := "https://www.screener.in".

(** An anchor of the concalls section: its [href] attribute, its text
    ([get_text(strip=True)]) and the texts of the elements before it,
    nearest first, as [find_previous] visits them. *)
Record Link := { href : string; link_text : string; previous_texts : list string }.

(** The dict [{'month': ..., 'year': ...}]. *)
Record DateInfo := { di_month : string; di_year : string }.

(** The dict appended to [transcripts]. *)
Record DocRef := { url : string; month : string; year : string; quarter : string }.

Definition months : list string :=
  ["Jan"; "Feb"; "Mar"; "Apr"; "May"; "Jun"; "Jul"; "Aug"; "Sep"; "Oct"; "Nov"; "Dec"].

Definition is_digit (c : Ascii.ascii) : bool :=
  (48 <=? Ascii.nat_of_ascii c) && (Ascii.nat_of_ascii c <=? 57).

Fixpoint all_digits (s : string) : bool :=
  match s with
  | EmptyString => true
  | String c t => is_digit c && all_digits t
  end.

Fixpoint digits_value_aux (acc : nat) (s : string) : nat :=
  match s with
  | EmptyString => acc
  | String c t => digits_value_aux (acc * 10 + (Ascii.nat_of_ascii c - 48)) t
  end.

(** [int(s)] on a string of ASCII digits. *)
Definition parse_int (s : string) : option nat :=
  if negb (String.eqb s "") && all_digits s then Some (digits_value_aux 0 s) else None.

Definition str_mem (s : string) (l : list string) : bool := existsb (String.eqb s) l.

Fixpoint drop_ws (s : string) : string :=
  match s with
  | String c t => if is_ws c then drop_ws t else s
  | EmptyString => s
  end.

(** [re.match(r'^(Jan|...|Dec)\s+(\d{4})$', text)] *)
Definition match_month_year (t : string) : option DateInfo :=
  let m := String.substring 0 3 t in
  let rest := String.substring 3 (String.length t - 3) t in
  let digits := drop_ws rest in
  if str_mem m months && negb (String.eqb digits rest)
     && Nat.eqb (String.length digits) 4 && all_digits digits
  then Some {| di_month := m; di_year := digits |} else None.

(** [_extract_date_from_context]: at most ten previous elements. *)
Fixpoint date_from_texts (ts : list string) : option DateInfo :=
  match ts with
  | [] => None
  | t :: ts' =>
      match match_month_year t with
      | Some d => Some d
      | None => date_from_texts ts'
      end
  end.

Definition extract_date_from_context (l : Link) : option DateInfo :=
  date_from_texts (take 10 (previous_texts l)).

Definition is_sep (c : Ascii.ascii) : bool :=
  Ascii.eqb c "/"%char || Ascii.eqb c "-"%char.

Definition char_at (i : nat) (s : string) : Ascii.ascii :=
  match String.get i s with Some c => c | None => Ascii.zero end.

(** [(\d{4})[/-](\d{2})[/-](\d{2})] anchored at the start of [s]. *)
Definition date_at (s : string) : bool :=
  Nat.leb 10 (String.length s)
  && all_digits (String.substring 0 4 s) && is_sep (char_at 4 s)
  && all_digits (String.substring 5 2 s) && is_sep (char_at 7 s)
  && all_digits (String.substring 8 2 s).

(** [re.search] of that pattern: the leftmost match. *)
Fixpoint search_date (s : string) : option (string * string) :=
  if date_at s then Some (String.substring 0 4 s, String.substring 5 2 s)
  else match s with
       | EmptyString => None
       | String _ t => search_date t
       end.

(** [_extract_date_from_url] *)
Definition extract_date_from_url (u : string) : option DateInfo :=
  match search_date u with
  | None => None
  | Some (y, mm) =>
      let mn := match parse_int mm with Some n => n | None => 0 end in
      let m := if (1 <=? mn) && (mn <=? 12)
               then nth (mn - 1) months "Unknown" else "Unknown" in
      Some {| di_month := m; di_year := y |}
  end.

Fixpoint has_scheme_aux (s : string) : bool :=
  match s with
  | EmptyString => false
  | String c t =>
      if Ascii.eqb c ":"%char then true
      else if Ascii.eqb c "/"%char || Ascii.eqb c "?"%char || Ascii.eqb c "#"%char
      then false else has_scheme_aux t
  end.

(** A scheme prefix ["name:"] before any ['/'], ['?'] or ['#']. *)
Definition has_scheme (s : string) : bool :=
  match s with
  | String c _ => negb (Ascii.eqb c ":"%char) && has_scheme_aux s
  | EmptyString => false
  end.

(** [urljoin(base_url, href)] for the base ["https://www.screener.in"],
    which has an empty path: a reference with its own scheme is kept,
    a network-path reference takes the scheme [https:], an absolute
    path or a query is appended to the base, and a relative path is
    resolved against the root. *)
Definition urljoin (base h : string) : string :=
  if has_scheme h then h
  else if startswith h "//" then "https:" ++ h
  else if startswith h "/" || startswith h "?" then base ++ h
  else base ++ "/" ++ h.

(** The filter loop over [all_links]; [seen] is [seen_urls]. *)
Fixpoint filter_links (start_year end_year : nat) (seen : list string)
    (links : list Link) : list DocRef :=
  match links with
  | [] => []
  | l :: ls =>
      let h := href l in
      let text := lower (link_text l) in
      if String.eqb h "" || startswith h "#" || contains "javascript:" h then
        filter_links start_year end_year seen ls
      else if negb (contains "transcript" text) then
        filter_links start_year end_year seen ls
      else
        let date_info := match extract_date_from_context l with
                         | Some d => Some d
                         | None => extract_date_from_url h
                         end in
        match date_info with
        | None => filter_links start_year end_year seen ls
        | Some d =>
            match parse_int (di_year d) with
            | None => filter_links start_year end_year seen ls
            | Some y =>
                if negb ((start_year <=? y) && (y <=? end_year)) then
                  filter_links start_year end_year seen ls
                else
                  let full_url := urljoin base_url h in
                  if negb (contains "bseindia.com" full_url) then
                    filter_links start_year end_year seen ls
                  else if negb (str_mem full_url seen) then
                    {| url := full_url; month := di_month d; year := di_year d;
                       quarter := di_month d ++ "_" ++ di_year d |}
                      :: filter_links start_year end_year (full_url :: seen) ls
                  else filter_links start_year end_year seen ls
            end
        end
  end.

(** [get_transcript_urls(symbol)] once the links of the concalls section
    have been collected, with the default years 2015..2026. *)
Definition get_transcript_urls (all_links : list Link) : list DocRef :=
  filter_links 2015 2026 [] all_links.

(** The network location of an absolute URL: what follows ["//"] up to
    the first ['/'], ['?'], ['#'] or [':']. *)
Fixpoint take_host (s : string) : string :=
  match s with
  | EmptyString => EmptyString
  | String c t =>
      if Ascii.eqb c "/"%char || Ascii.eqb c "?"%char || Ascii.eqb c "#"%char
         || Ascii.eqb c ":"%char then EmptyString
      else String c (take_host t)
  end.

Fixpoint after_slashes (s : string) : string :=
  match s with
  | EmptyString => EmptyString
  | String _ t => if startswith s "//" then drop_chars 2 s else after_slashes t
  end.

Definition url_host (u : string) : string := lower (take_host (after_slashes u)).

Definition is_suffix (p s : string) : bool :=
  Nat.leb (String.length p) (String.length s)
  && String.eqb (String.substring (String.length s - String.length p) (String.length p) s) p.

(** Hosted on bseindia.com: the host is [bseindia.com] or a subdomain. *)
Definition hosted_on_bse (u : string) : bool :=
  let h := url_host u in String.eqb h "bseindia.com" || is_suffix ".bseindia.com" h.
End Fetcher.

(* ------------------------------------------------------------------ *)
(** ** [LocalTranscriptProcessor]: dates from file names, folder walk *)
(* ------------------------------------------------------------------ *)
Module LocalFiles.
Import Text Scorer Fetcher.

Definition months_lc : list string :=
  ["jan"; "feb"; "mar"; "apr"; "may"; "jun"; "jul"; "aug"; "sep"; "oct"; "nov"; "dec"].

Definition full_months : list string :=
  ["january"; "february"; "march"; "april"; "may"; "june"; "july"; "august";
   "september"; "october"; "november"; "december"].

(** [s.capitalize()] *)
Definition capitalize (s : string) : string :=
  match s with
  | EmptyString => EmptyString
  | String c t => String (upper_char c) (lower t)
  end.

(** [month_map[m]] = [m.capitalize()[:3]] *)
Definition month_map (m : string) : string := String.substring 0 3 (capitalize m).

(** [full_month_map[full_months[i]]] = [months[i][:3].capitalize()] *)
Definition full_month_map_at (i : nat) : string :=
  capitalize (String.substring 0 3 (nth i months_lc "")).

(** the [for full_m in full_months] loop; [i] is the index of [full_m] *)
Fixpoint find_full (ms : list string) (i : nat) (fn : string) : option string :=
  match ms with
  | [] => None
  | m :: ms' => if contains m fn then Some (full_month_map_at i) else find_full ms' (S i) fn
  end.

(** the [for m in months] loop *)
Fixpoint find_short (ms : list string) (fn : string) : option string :=
  match ms with
  | [] => None
  | m :: ms' => if contains m fn then Some (month_map m) else find_short ms' fn
  end.

Definition code_in (c : Ascii.ascii) (lo hi : nat) : bool :=
  (lo <=? Ascii.nat_of_ascii c) && (Ascii.nat_of_ascii c <=? hi).

(** [20(1[5-9]|2[0-6])] anchored at the start of [s] *)
Definition year_at (s : string) : bool :=
  match s with
  | String a (String b (String c (String d _))) =>
      Ascii.eqb a "2"%char && Ascii.eqb b "0"%char
      && ((Ascii.eqb c "1"%char && code_in d 53 57)
          || (Ascii.eqb c "2"%char && code_in d 48 54))
  | _ => false
  end.

(** [re.search(r'20(1[5-9]|2[0-6])', fn).group(0)] *)
Fixpoint search_year (s : string) : option string :=
  if year_at s then Some (String.substring 0 4 s)
  else match s with
       | EmptyString => None
       | String _ t => search_year t
       end.

Definition is_sep_fn (c : Ascii.ascii) : bool :=
  Ascii.eqb c "-"%char || Ascii.eqb c "_"%char.

(** [(\d{4})[-_](\d{2})[-_](\d{2})] anchored at the start of [s] *)
Definition fn_date_at (s : string) : bool :=
  Nat.leb 10 (String.length s)
  && all_digits (String.substring 0 4 s) && is_sep_fn (char_at 4 s)
  && all_digits (String.substring 5 2 s) && is_sep_fn (char_at 7 s)
  && all_digits (String.substring 8 2 s).

(** [re.search] of that pattern: [group(2)] of the leftmost match *)
Fixpoint search_fn_date (s : string) : option string :=
  if fn_date_at s then Some (String.substring 5 2 s)
  else match s with
       | EmptyString => None
       | String _ t => search_fn_date t
       end.

(** [re.search(r'q([1-4])', fn)]: [int(group(1))] of the leftmost match *)
Fixpoint search_q (s : string) : option nat :=
  match s with
  | String a ((String b _) as t) =>
      if Ascii.eqb a "q"%char && code_in b 49 52
      then Some (Ascii.nat_of_ascii b - 48) else search_q t
  | _ => None
  end.

(** [quarter_months.get(quarter, 'Unknown')] *)
Definition quarter_months (q : nat) : string :=
  match q with 1 => "Jun" | 2 => "Sep" | 3 => "Dec" | 4 => "Mar" | _ => "Unknown" end.

(** [_extract_date_from_filename(filename)] *)
Definition extract_date_from_filename (filename : string) : DateInfo :=
  let fn := lower filename in
  let found_month :=
    match find_full full_months 0 fn with
    | Some m => Some m
    | None => find_short months_lc fn
    end in
  let found_year := search_year fn in
  let found_month :=
    match found_month, found_year with
    | None, Some _ =>
        match search_fn_date fn with
        | Some mm =>
            let month_num := match parse_int mm with Some n => n | None => 0 end in
            if (1 <=? month_num) && (month_num <=? 12)
            then Some (String.substring 0 3 (capitalize (nth (month_num - 1) months_lc "")))
            else None
        | None => None
        end
    | _, _ => found_month
    end in
  let found_month :=
    match found_month with
    | Some m => Some m
    | None => match search_q fn with Some q => Some (quarter_months q) | None => None end
    end in
  {| di_month := match found_month with Some m => m | None => "Unknown" end;
     di_year := match found_year with Some y => y | None => "Unknown" end |}.

(** the digits of [int(s)] after the sign: ASCII digits, single
    underscores between digits *)
Fixpoint py_digits (s : string) (acc : Z) (need_digit : bool) : option Z :=
  match s with
  | EmptyString => if need_digit then None else Some acc
  | String c t =>
      if is_digit c then py_digits t (acc * 10 + Z.of_nat (Ascii.nat_of_ascii c - 48)) false
      else if Ascii.eqb c "_"%char && negb need_digit then py_digits t acc true
      else None
  end.

(** [int(s)] on a folder name; [None] is a [ValueError] *)
Definition py_int (s : string) : option Z :=
  let t := rstrip (lstrip s) in
  match t with
  | EmptyString => None
  | String c r =>
      if Ascii.eqb c "+"%char then py_digits r 0 true
      else if Ascii.eqb c "-"%char then option_map Z.opp (py_digits r 0 true)
      else py_digits t 0 true
  end.

Fixpoint digits_of (fuel n : nat) (acc : string) : string :=
  match fuel with
  | O => acc
  | S f =>
      let acc' := String (Ascii.ascii_of_nat (48 + n mod 10)) acc in
      if n <? 10 then acc' else digits_of f (n / 10) acc'
  end.

(** [str(n)] for an integer *)
Definition str_of_Z (z : Z) : string :=
  if (z <? 0)%Z then "-" ++ digits_of (S (Z.to_nat (- z))) (Z.to_nat (- z)) ""
  else digits_of (S (Z.to_nat z)) (Z.to_nat z) "".

(** an entry of [sorted(company_folder.iterdir())]: its name, whether it
    is a directory, and, when [year_folder / 'Transcript'] exists, the
    names of [sorted(transcript_folder.glob('*.pdf'))] *)
Record YearEntry := { ye_name : string; ye_is_dir : bool; ye_pdfs : option (list string) }.

(** [{'path', 'month', 'year', 'quarter'}]; the path as (year folder, file) *)
Record LocalTranscript := {
  lt_path : string * string; lt_month : string; lt_year : string; lt_quarter : string }.

(** [get_local_transcripts(company, start_year, end_year)]; [None] is a
    company folder that does not exist *)
Definition get_local_transcripts (company_folder : option (list YearEntry))
    (start_year end_year : Z) : list LocalTranscript :=
  match company_folder with
  | None => []
  | Some entries =>
      flat_map (fun yf =>
        if negb (ye_is_dir yf) then []
        else match py_int (ye_name yf) with
          | None => []
          | Some year =>
              if (year <? start_year)%Z || (end_year <? year)%Z then []
              else match ye_pdfs yf with
                | None => []
                | Some pdfs =>
                    map (fun f =>
                      let date_info := extract_date_from_filename f in
                      let y := if String.eqb (di_year date_info) "Unknown"
                               then str_of_Z year else di_year date_info in
                      {| lt_path := (ye_name yf, f); lt_month := di_month date_info;
                         lt_year := y; lt_quarter := di_month date_info ++ " " ++ y |}) pdfs
                end
          end) entries
  end.

End LocalFiles.

(* ------------------------------------------------------------------ *)
(** ** Dashboard helpers *)
(* ------------------------------------------------------------------ *)
Module Dashboard.
Local Open Scope Q_scope.

(** [get_market_mood(avg_score)] *)
Definition get_market_mood (avg_score : Q) : string * string :=
  if Qle_bool (1#2) avg_score then ("Extreme Greed", "emerald")
  else if Qle_bool (2#10) avg_score then ("Greed", "emerald")
  else if Qle_bool (-2#10) avg_score then ("Neutral", "amber")
  else if Qle_bool (-5#10) avg_score then ("Fear", "red")
  else ("Extreme Fear", "red").

(** the five moods, from the most fearful to the most greedy *)
Definition mood_scale : list string :=
  ["Extreme Fear"; "Fear"; "Neutral"; "Greed"; "Extreme Greed"].

Fixpoint index_of (s : string) (l : list string) : nat :=
  match l with
  | [] => 0
  | x :: l' => if String.eqb s x then 0 else S (index_of s l')
  end.

Definition mood_rank (mood : string) : nat := index_of mood mood_scale.

(** a bound of [df.iloc[a:b]] on [n] rows, as Python slices read it *)
Definition slice_bound (n i : Z) : Z :=
  if (i <? 0)%Z then Z.max 0 (i + n) else Z.min i n.

(** [rows[a:b]] *)
Definition py_slice {A} (rows : list A) (a b : Z) : list A :=
  let n := Z.of_nat (length rows) in
  let a' := slice_bound n a in
  let b' := slice_bound n b in
  take (Z.to_nat (b' - a')) (drop (Z.to_nat a') rows).

(** [get_paginated_stocks(page, per_page)] on [latest] once sorted by
    score: the page, [total] and [total_pages]; [None] is the
    [ZeroDivisionError] of [// per_page] *)
Definition get_paginated_stocks {A} (latest : option (list A)) (page per_page : Z)
    : option (list A * nat * Z) :=
  match latest with
  | None => Some ([], 0%nat, 0%Z)
  | Some rows =>
      let total := Z.of_nat (length rows) in
      if (per_page =? 0)%Z then None
      else
        let total_pages := ((total + per_page - 1) / per_page)%Z in
        let start_idx := ((page - 1) * per_page)%Z in
        let end_idx := (start_idx + per_page)%Z in
        Some (py_slice rows start_idx end_idx, length rows, total_pages)
  end.

(** [ranges] of [get_sentiment_distribution] *)
Definition ranges : list (Q * Q) :=
  [(-1, -8#10); (-8#10, -6#10); (-6#10, -4#10); (-4#10, -2#10); (-2#10, 0);
   (0, 2#10); (2#10, 4#10); (4#10, 6#10); (6#10, 8#10); (8#10, 1)].

(** [len(latest[(score >= low) & (score < high)])] *)
Definition bucket_count (scores : list Q) (low high : Q) : nat :=
  length (List.filter (fun x => Qle_bool low x && negb (Qle_bool high x)) scores).

(** the ['buckets'] of [get_sentiment_distribution()], as
    (low, high, count), on the scores of the latest rows *)
Definition get_sentiment_distribution (latest : option (list Q)) : list (Q * Q * nat) :=
  match latest with
  | None => []
  | Some scores => map (fun '(low, high) => (low, high, bucket_count scores low high)) ranges
  end.

End Dashboard.

(* ================================================================== *)
(** * Properties *)
(* ================================================================== *)

(* ------------------------------------------------------------------ *)
(** ** Words and chunks *)
(* ------------------------------------------------------------------ *)
Module ChunkerFacts.
Import Text Chunker.

Lemma has_non_ws_app (a b : string) :
  has_non_ws (String.append a b) = has_non_ws a || has_non_ws b.
Proof.
  induction a as [|c a IH]; simpl; [reflexivity|].
  rewrite IH. apply orb_assoc.
Qed.

(** Every word of [str.split()] holds a non-blank character. *)
Lemma split_aux_words (s cur : string) :
  (cur = EmptyString \/ has_non_ws cur = true) ->
  Forall (fun w => has_non_ws w = true) (split_aux s cur).
Proof.
  revert cur. induction s as [|c s IH]; intros cur Hcur; simpl.
  - destruct cur as [|c0 cur0]; [constructor|].
    destruct Hcur as [Hcur|Hcur]; [discriminate|].
    constructor; [exact Hcur|constructor].
  - destruct (is_ws c) eqn:Hc.
    + destruct cur as [|c0 cur0].
      * apply IH. now left.
      * destruct Hcur as [Hcur|Hcur]; [discriminate|].
        constructor; [exact Hcur|]. apply IH. now left.
    + apply IH. right. rewrite has_non_ws_app. simpl. rewrite Hc. simpl.
      apply orb_true_r.
Qed.

Lemma py_split_words (s : string) :
  Forall (fun w => has_non_ws w = true) (py_split s).
Proof. apply split_aux_words. now left. Qed.

Lemma join_non_ws (ws : list string) :
  ws <> [] -> Forall (fun w => has_non_ws w = true) ws ->
  has_non_ws (join ws) = true.
Proof.
  destruct ws as [|w ws]; [congruence|]. intros _ Hall.
  inversion Hall as [|? ? Hw _]; subst.
  unfold join; simpl. destruct ws as [|w' ws']; [exact Hw|].
  rewrite has_non_ws_app, Hw. reflexivity.
Qed.

Lemma slice_non_ws (words : list string) (a b : nat) :
  Forall (fun w => has_non_ws w = true) words ->
  a < b -> b <= length words ->
  has_non_ws (join (slice words a b)) = true.
Proof.
  intros Hall Hab Hb. apply join_non_ws.
  - unfold slice. intros Hnil.
    assert (Hl : length (take (b - a) (drop a words)) = 0) by now rewrite Hnil.
    rewrite length_take, length_drop in Hl. lia.
  - unfold slice. apply Forall_take, Forall_drop, Hall.
Qed.

(** One turn of the loop on a non-empty remainder emits a chunk. *)
Lemma chunk_loop_step (fuel : nat) (words : list string) (wpc ov start : nat) :
  Forall (fun w => has_non_ws w = true) words ->
  0 < wpc -> start < length words ->
  chunk_loop (S fuel) words wpc ov start =
    join (slice words start (Nat.min (start + wpc) (length words)))
    :: chunk_loop fuel words wpc ov
         (if Nat.min (start + wpc) (length words) <? length words
          then Nat.min (start + wpc) (length words) - ov else length words).
Proof.
  intros Hall Hw Hs. simpl.
  assert (Hlt : (start <? length words) = true) by (apply Nat.ltb_lt; exact Hs).
  rewrite Hlt. rewrite slice_non_ws; [reflexivity|exact Hall|lia|lia].
Qed.

Lemma chunk_loop_stop (fuel : nat) (words : list string) (wpc ov start : nat) :
  length words <= start -> chunk_loop fuel words wpc ov start = [].
Proof.
  intros H. destruct fuel; simpl; [reflexivity|].
  assert (Hlt : (start <? length words) = false) by (apply Nat.ltb_ge; exact H).
  now rewrite Hlt.
Qed.


(** C5 (counterexample): a text of exactly three windows of words
    (3 * 337 = 1011 words) is split into four chunks, not three: the
    windows start at words 0, 304, 608 and 912. *)
Lemma chunk_text_three_windows_counterexample :
  let t := join (repeat "w" (3 * words_per_chunk 450)) in
  length (py_split t) = 3 * words_per_chunk 450 /\ length (chunk_text t) <> 3.
Proof. vm_compute. split; [reflexivity|discriminate]. Qed.

Ltac chunk_step Hall Hn :=
  rewrite chunk_loop_step by (try exact Hall; lia);
  rewrite ?Hn; cbn [Nat.min Nat.add Nat.sub Nat.ltb Nat.leb].

(** C5 (amended): with the default budget the window is 337 words and the
    overlap 33 words.  A text of exactly 3 * 337 words gives four chunks;
    a text of at most 337 words (including an empty one, through the
    prefix fallback) gives exactly one chunk. *)
Theorem chunk_text_window_counts (text : string) :
  words_per_chunk 450 = 337 /\ overlap 450 = 33 /\
  (length (py_split text) = 3 * words_per_chunk 450 ->
     length (chunk_text text) = 4) /\
  (length (py_split text) <= words_per_chunk 450 ->
     length (chunk_text text) = 1).
Proof.
  assert (W : words_per_chunk 450 = 337) by reflexivity.
  assert (O : overlap 450 = 33) by reflexivity.
  pose proof (py_split_words text) as Hall.
  unfold chunk_text, chunk_text_max. rewrite W, O.
  split; [reflexivity|]. split; [reflexivity|].
  remember (py_split text) as words eqn:Hw. clear Hw.
  split.
  - intros Hn. simpl in Hn. rewrite Hn.
    chunk_step Hall Hn. chunk_step Hall Hn.
    chunk_step Hall Hn. chunk_step Hall Hn.
    rewrite chunk_loop_stop by lia. reflexivity.
  - intros Hn. destruct (length words) as [|m] eqn:Hl.
    + rewrite chunk_loop_stop by lia. reflexivity.
    + rewrite chunk_loop_step by (try exact Hall; lia).
      rewrite chunk_loop_stop.
      * reflexivity.
      * rewrite Hl. destruct (Nat.ltb_spec (Nat.min (0 + 337) (S m)) (S m)); lia.
Qed.

End ChunkerFacts.

(* ------------------------------------------------------------------ *)
(** ** Rounding to three decimals *)
(* ------------------------------------------------------------------ *)
Module RoundFacts.
Import Scorer.
Local Open Scope Q_scope.

Lemma round3_cases (x : Q) :
  (round3 x = inject_Z (Qfloor (x * 1000)) / 1000 /\
     x * 1000 - inject_Z (Qfloor (x * 1000)) <= 1#2) \/
  (round3 x = inject_Z (Qfloor (x * 1000) + 1) / 1000 /\
     1#2 <= x * 1000 - inject_Z (Qfloor (x * 1000))).
Proof.
  unfold round3. set (f := Qfloor (x * 1000)).
  destruct (Qle_bool (1#2) (x * 1000 - inject_Z f)) eqn:E1; cbn [negb].
  - apply Qle_bool_iff in E1.
    destruct (Qeq_bool (x * 1000 - inject_Z f) (1#2)) eqn:E2; cbn [negb].
    + apply Qeq_bool_iff in E2.
      destruct (Z.even f).
      * left. split; [reflexivity|]. rewrite E2. apply Qle_refl.
      * right. split; [reflexivity|exact E1].
    + right. split; [reflexivity|exact E1].
  - left. split; [reflexivity|].
    apply Qlt_le_weak, Qnot_le_lt. intros H. apply Qle_bool_iff in H.
    congruence.
Qed.

Lemma floor_facts (y : Q) :
  inject_Z (Qfloor y) <= y /\ y < inject_Z (Qfloor y) + 1.
Proof.
  split; [apply Qfloor_le|].
  pose proof (Qlt_floor y) as H. rewrite inject_Z_plus in H. exact H.
Qed.

(** [round(x, 3)] moves [x] by at most half a unit in the last place. *)
Lemma round3_err (x : Q) :
  x - (1#2000) <= round3 x /\ round3 x <= x + (1#2000).
Proof.
  destruct (floor_facts (x * 1000)) as [F1 F2].
  destruct (round3_cases x) as [[E H]|[E H]]; rewrite E;
    rewrite ?inject_Z_plus; unfold Qdiv; change (/ 1000) with (1#1000);
    change (inject_Z 1) with 1; generalize dependent (inject_Z (Qfloor (x * 1000)));
    intros; split; lra.
Qed.

(** Rounding keeps a value of [[-1, 1]] inside [[-1, 1]]. *)
Lemma round3_range (x : Q) :
  -1 <= x -> x <= 1 -> -1 <= round3 x /\ round3 x <= 1.
Proof.
  intros Hlo Hhi.
  destruct (floor_facts (x * 1000)) as [F1 F2].
  set (f := Qfloor (x * 1000)) in *.
  destruct (round3_cases x) as [[E H]|[E H]]; rewrite E; fold f in H |- *.
  - assert (Hf : (-1000 <= f)%Z).
    { assert (Hq : inject_Z (-1001) < inject_Z f).
      { change (inject_Z (-1001)) with (-1001). lra. }
      rewrite <- Zlt_Qlt in Hq. lia. }
    rewrite Zle_Qle in Hf. change (inject_Z (-1000)) with (-1000) in Hf.
    unfold Qdiv; change (/ 1000) with (1#1000).
    generalize dependent (inject_Z f). intros. split; lra.
  - assert (Hf : (f <= 999)%Z).
    { assert (Hq : inject_Z f < inject_Z 1000).
      { change (inject_Z 1000) with 1000. lra. }
      rewrite <- Zlt_Qlt in Hq. lia. }
    rewrite Zle_Qle in Hf. change (inject_Z 999) with 999 in Hf.
    rewrite inject_Z_plus. change (inject_Z 1) with 1.
    unfold Qdiv; change (/ 1000) with (1#1000).
    generalize dependent (inject_Z f). intros. split; lra.
Qed.

End RoundFacts.

(* ------------------------------------------------------------------ *)
(** ** Score vectors *)
(* ------------------------------------------------------------------ *)
Module ScoreFacts.
Import Text Chunker Scorer RoundFacts.
Local Open Scope Q_scope.

Lemma chunk_text_nonempty (text : string) : chunk_text text <> [].
Proof.
  unfold chunk_text, chunk_text_max.
  destruct (chunk_loop _ _ _ _ _); discriminate.
Qed.

Definition qsum (xs : list Q) : Q := fold_right Qplus 0 xs.

Lemma inject_nat_succ (n : nat) :
  inject_Z (Z.of_nat (S n)) == inject_Z (Z.of_nat n) + 1.
Proof.
  rewrite Nat2Z.inj_succ, <- Z.add_1_r, inject_Z_plus. reflexivity.
Qed.

Lemma inject_nat_pos (n : nat) : (0 < n)%nat -> 0 < inject_Z (Z.of_nat n).
Proof.
  intros H. change 0 with (inject_Z 0). rewrite <- Zlt_Qlt. lia.
Qed.

(** The three column sums of distributions that each sum to one add up
    to the number of rows. *)
Lemma column_sums (l : list (Q * Q * Q)) :
  Forall (fun v => v.1.1 + v.1.2 + v.2 == 1) l ->
  qsum (map (fun v => v.1.1) l) + qsum (map (fun v => v.1.2) l)
    + qsum (map (fun v => v.2) l) == inject_Z (Z.of_nat (length l)).
Proof.
  induction l as [|v l IH]; intros Hall; [reflexivity|].
  inversion Hall as [|? ? Hv Hl]; subst. specialize (IH Hl).
  change (length (v :: l)) with (S (length l)). rewrite inject_nat_succ.
  unfold qsum in *. simpl. lra.
Qed.

Lemma mean_sum (l : list (Q * Q * Q)) :
  l <> [] -> Forall (fun v => v.1.1 + v.1.2 + v.2 == 1) l ->
  mean (map (fun v => v.1.1) l) + mean (map (fun v => v.1.2) l)
    + mean (map (fun v => v.2) l) == 1.
Proof.
  intros Hne Hall. pose proof (column_sums l Hall) as Hs.
  unfold mean. rewrite !length_map.
  assert (Hpos : 0 < inject_Z (Z.of_nat (length l))).
  { apply inject_nat_pos. destruct l; [congruence|simpl; lia]. }
  change (fold_right Qplus 0) with qsum.
  revert Hs Hpos.
  generalize (inject_Z (Z.of_nat (length l))) as L.
  generalize (qsum (map (fun v => v.1.1) l)) as a.
  generalize (qsum (map (fun v => v.1.2) l)) as b.
  generalize (qsum (map (fun v => v.2) l)) as c.
  intros c b a L Hs Hpos.
  assert (HL : ~ L == 0) by (intros H0; rewrite H0 in Hpos; discriminate).
  assert (E : a / L + b / L + c / L == (a + b + c) / L) by (field; exact HL).
  rewrite E, Hs. field. exact HL.
Qed.

(** The fallback pseudo-distribution sums to one before rounding. *)
Lemma textblob_sum_err (polarity : string -> Q) (text : string) :
  let v := analyze_text_textblob polarity text in
  1 - (3#2000) <= positive v + negative v + neutral v /\
  positive v + negative v + neutral v <= 1 + (3#2000).
Proof.
  unfold analyze_text_textblob. destruct (too_short text 20).
  - simpl. split; lra.
  - destruct (gtb (polarity text) 0); [|destruct (ltb (polarity text) 0)];
    cbn [positive negative neutral];
    match goal with
    | |- context [round3 ?a + round3 ?b + round3 ?c] =>
        destruct (round3_err a); destruct (round3_err b); destruct (round3_err c)
    end; split; lra.
Qed.


(** C1 (counterexample): on the TextBlob fallback path a 20-word text of
    polarity 0.2 gets positive 0.6, negative 0.1 and compound 0.2, so the
    compound is not positive - negative (0.5). *)
Lemma score_vector_compound_counterexample :
  let v := analyze_text_finbert false (fun _ => (1#3, 1#3, 1#3)) (fun _ => 1#5)
             (join (repeat "good" 20)) in
  positive v == 3#5 /\ negative v == 1#10 /\ compound_score v == 1#5 /\
  ~ (compound_score v == positive v - negative v).
Proof.
  vm_compute. split; [reflexivity|]. split; [reflexivity|].
  split; [reflexivity|]. intros H. discriminate.
Qed.

(** C1 (amended): positive + negative + neutral is within 0.0015 of 1 on
    both paths (exactly 1 on the FinBERT path, where every chunk's softmax
    sums to 1).  On the FinBERT path the compound is positive - negative
    rounded to three decimals (off by at most 0.0005); on the TextBlob
    fallback path the compound is the rounded polarity itself (0 for a
    text under 20 words). *)
Theorem score_vector_sum_and_compound (use_finbert : bool)
    (finbert_probs : string -> Q * Q * Q) (polarity : string -> Q)
    (Hsoftmax : forall c, (finbert_probs c).1.1 + (finbert_probs c).1.2
                          + (finbert_probs c).2 == 1)
    (text : string) :
  let v := analyze_text_finbert use_finbert finbert_probs polarity text in
  1 - (3#2000) <= positive v + negative v + neutral v /\
  positive v + negative v + neutral v <= 1 + (3#2000) /\
  (use_finbert = true ->
     positive v + negative v + neutral v == 1 /\
     positive v - negative v - (1#2000) <= compound_score v /\
     compound_score v <= positive v - negative v + (1#2000)) /\
  (use_finbert = false ->
     compound_score v = if too_short text 20 then 0 else round3 (polarity text)).
Proof.
  destruct use_finbert; cbv zeta.
  - unfold analyze_text_finbert. cbn [negb positive negative neutral compound_score].
    set (l := map finbert_probs (chunk_text text)).
    assert (Hs : mean (map (fun v => v.1.1) l) + mean (map (fun v => v.1.2) l)
                 + mean (map (fun v => v.2) l) == 1).
    { apply mean_sum.
      - unfold l. intros Hnil. apply map_eq_nil in Hnil.
        exact (chunk_text_nonempty text Hnil).
      - unfold l. apply Forall_map, Forall_forall. intros c _. apply Hsoftmax. }
    destruct (round3_err (mean (map (fun v => v.1.1) l) - mean (map (fun v => v.1.2) l))).
    split; [lra|]. split; [lra|]. split; [intros _; split; [exact Hs|split; lra]|].
    discriminate.
  - unfold analyze_text_finbert. cbn [negb].
    destruct (textblob_sum_err polarity text) as [H1 H2].
    split; [exact H1|]. split; [exact H2|]. split; [discriminate|].
    intros _. unfold analyze_text_textblob.
    destruct (too_short text 20); [reflexivity|].
    destruct (gtb (polarity text) 0); [reflexivity|].
    destruct (ltb (polarity text) 0); reflexivity.
Qed.

Lemma score_vector_sum_and_compound_witness :
  (forall c : string, (1#2) + (1#4) + (1#4) == 1) /\
  (let v := analyze_text_finbert true (fun _ => (1#2, 1#4, 1#4)) (fun _ => 0)
              (join (repeat "good" 60)) in
   1 - (3#2000) <= positive v + negative v + neutral v /\
   positive v + negative v + neutral v <= 1 + (3#2000) /\
   (true = true ->
      positive v + negative v + neutral v == 1 /\
      positive v - negative v - (1#2000) <= compound_score v /\
      compound_score v <= positive v - negative v + (1#2000)) /\
   (true = false ->
      compound_score v = if too_short (join (repeat "good" 60)) 20 then 0
                         else round3 ((fun _ => 0) (join (repeat "good" 60))))).
Proof.
  split.
  - intros c. vm_compute. reflexivity.
  - apply (score_vector_sum_and_compound true (fun _ => (1#2, 1#4, 1#4)) (fun _ => 0)).
    intros c. vm_compute. reflexivity.
Defined.

End ScoreFacts.

(* ------------------------------------------------------------------ *)
(** ** The composite score *)
(* ------------------------------------------------------------------ *)
Module CompositeFacts.
Import Text Chunker Scorer RoundFacts ScoreFacts.
Local Open Scope Q_scope.

Lemma gtb_true (x y : Q) : gtb x y = true -> y < x.
Proof.
  unfold gtb. intros H. apply Qnot_le_lt. intros H'.
  apply Qle_bool_iff in H'. rewrite H' in H. discriminate.
Qed.

Lemma ltb_true (x y : Q) : ltb x y = true -> x < y.
Proof.
  unfold ltb. intros H. apply Qnot_le_lt. intros H'.
  apply Qle_bool_iff in H'. rewrite H' in H. discriminate.
Qed.

Lemma clamp_range (score : Q) :
  -1 <= py_max (-1) (py_min 1 score) /\ py_max (-1) (py_min 1 score) <= 1.
Proof.
  assert (Hm : py_min 1 score <= 1).
  { unfold py_min. destruct (ltb score 1) eqn:E.
    - apply ltb_true in E. lra.
    - lra. }
  unfold py_max. destruct (gtb (py_min 1 score) (-1)) eqn:E.
  - apply gtb_true in E. split; lra.
  - split; lra.
Qed.

Lemma keyword_range (text : string) :
  -1 <= get_keyword_sentiment text /\ get_keyword_sentiment text <= 1.
Proof.
  unfold get_keyword_sentiment.
  destruct (Nat.eqb _ 0).
  - split; lra.
  - destruct (clamp_range
      ((inject_Z (Z.of_nat (length (List.filter (fun w => mem w positive_keywords)
                                      (py_split (lower text)))))
        - inject_Z (Z.of_nat (length (List.filter (fun w => mem w negative_keywords)
                                        (py_split (lower text))))))
       / inject_Z (Z.of_nat
           (length (List.filter (fun w => mem w positive_keywords) (py_split (lower text)))
            + length (List.filter (fun w => mem w negative_keywords) (py_split (lower text))))))).
    apply round3_range; assumption.
Qed.

Lemma guidance_range (text : string) :
  -1 <= detect_guidance text /\ detect_guidance text <= 1.
Proof.
  unfold detect_guidance.
  destruct (Nat.ltb _ _); [|destruct (Nat.ltb _ _)]; split; lra.
Qed.

Lemma qsum_range (xs : list Q) :
  Forall (fun x => 0 <= x /\ x <= 1) xs ->
  0 <= qsum xs /\ qsum xs <= inject_Z (Z.of_nat (length xs)).
Proof.
  induction xs as [|x xs IH]; intros Hall; [split; apply Qle_refl|].
  inversion Hall as [|? ? Hx Hxs]; subst. destruct (IH Hxs).
  change (length (x :: xs)) with (S (length xs)). rewrite inject_nat_succ.
  unfold qsum in *. simpl. split; lra.
Qed.

Lemma mean_range (xs : list Q) :
  xs <> [] -> Forall (fun x => 0 <= x /\ x <= 1) xs ->
  0 <= mean xs /\ mean xs <= 1.
Proof.
  intros Hne Hall. destruct (qsum_range xs Hall) as [H0 H1].
  assert (Hpos : 0 < inject_Z (Z.of_nat (length xs))).
  { apply inject_nat_pos. destruct xs; [congruence|simpl; lia]. }
  unfold mean. change (fold_right Qplus 0 xs) with (qsum xs).
  split.
  - apply Qle_shift_div_l; [exact Hpos|]. lra.
  - apply Qle_shift_div_r; [exact Hpos|]. lra.
Qed.

Section Bounds.
Variable use_finbert : bool.
Variable finbert_probs : string -> Q * Q * Q.
Variable polarity : string -> Q.
Hypothesis Hsoftmax : forall c,
  0 <= (finbert_probs c).1.1 /\ 0 <= (finbert_probs c).1.2 /\
  0 <= (finbert_probs c).2 /\
  (finbert_probs c).1.1 + (finbert_probs c).1.2 + (finbert_probs c).2 == 1.
Hypothesis Hpolarity : forall t, -1 <= polarity t /\ polarity t <= 1.

Lemma compound_range (text : string) :
  -1 <= compound_score (analyze_text_finbert use_finbert finbert_probs polarity text)
  /\ compound_score (analyze_text_finbert use_finbert finbert_probs polarity text) <= 1.
Proof.
  unfold analyze_text_finbert. destruct use_finbert; cbn [negb].
  - cbn [compound_score].
    set (l := map finbert_probs (chunk_text text)).
    assert (Hne : l <> []).
    { unfold l. intros Hnil. apply map_eq_nil in Hnil.
      exact (chunk_text_nonempty text Hnil). }
    assert (Hp : 0 <= mean (map (fun v => v.1.1) l) /\ mean (map (fun v => v.1.1) l) <= 1).
    { apply mean_range.
      - intros Hnil. apply map_eq_nil in Hnil. congruence.
      - unfold l. rewrite Forall_map, Forall_map. apply Forall_forall. intros c _.
        destruct (Hsoftmax c) as (A & B & C & D). split; lra. }
    assert (Hn : 0 <= mean (map (fun v => v.1.2) l) /\ mean (map (fun v => v.1.2) l) <= 1).
    { apply mean_range.
      - intros Hnil. apply map_eq_nil in Hnil. congruence.
      - unfold l. rewrite Forall_map, Forall_map. apply Forall_forall. intros c _.
        destruct (Hsoftmax c) as (A & B & C & D). split; lra. }
    apply round3_range; lra.
  - unfold analyze_text_textblob. destruct (too_short text 20).
    + cbn [compound_score]. split; lra.
    + destruct (Hpolarity text).
      destruct (gtb (polarity text) 0); [|destruct (ltb (polarity text) 0)];
        cbn [compound_score]; apply round3_range; assumption.
Qed.
End Bounds.


(** C2: the composite overall sentiment of [analyze_transcript] lies in
    [[-1, 1]] for every text.  There is no explicit clamp: the bound
    follows from the components' ranges (model compound in [[-1, 1]] as a
    difference of averaged softmax probabilities, or a rounded TextBlob
    polarity in [[-1, 1]]; the lexicon score clamped to [[-1, 1]]; the
    guidance signal in {-1, 0, 1}) and from the weights 0.5 + 0.3 + 0.2 = 1. *)
Theorem composite_score_in_range (use_finbert : bool)
    (finbert_probs : string -> Q * Q * Q) (polarity : string -> Q)
    (Hsoftmax : forall c,
       0 <= (finbert_probs c).1.1 /\ 0 <= (finbert_probs c).1.2 /\
       0 <= (finbert_probs c).2 /\
       (finbert_probs c).1.1 + (finbert_probs c).1.2 + (finbert_probs c).2 == 1)
    (Hpolarity : forall t, -1 <= polarity t /\ polarity t <= 1)
    (text : string) :
  -1 <= overall_sentiment (analyze_transcript use_finbert finbert_probs polarity text)
  /\ overall_sentiment (analyze_transcript use_finbert finbert_probs polarity text) <= 1.
Proof.
  unfold analyze_transcript. destruct (too_short text 50).
  - cbn. split; discriminate.
  - cbn [overall_sentiment]. apply round3_range;
    destruct (compound_range use_finbert finbert_probs polarity Hsoftmax Hpolarity
                (clean_text text));
    destruct (keyword_range (clean_text text));
    destruct (guidance_range (clean_text text)); lra.
Qed.

Lemma composite_score_in_range_witness :
  (forall c : string, 0 <= 1#2 /\ 0 <= 1#4 /\ 0 <= 1#4 /\ (1#2) + (1#4) + (1#4) == 1) /\
  (forall t : string, -1 <= 0 /\ 0 <= 1) /\
  (-1 <= overall_sentiment (analyze_transcript true (fun _ => (1#2, 1#4, 1#4))
                              (fun _ => 0) (join (repeat "strong" 60)))
   /\ overall_sentiment (analyze_transcript true (fun _ => (1#2, 1#4, 1#4))
                            (fun _ => 0) (join (repeat "strong" 60))) <= 1).
Proof.
  split; [intros c; repeat split; vm_compute; congruence|].
  split; [intros t; split; vm_compute; congruence|].
  apply (composite_score_in_range true (fun _ => (1#2, 1#4, 1#4)) (fun _ => 0)).
  - intros c; repeat split; vm_compute; congruence.
  - intros t; split; vm_compute; congruence.
Defined.

(** C6 (counterexample): the neutral defaults of a short text are
    0.33 / 0.33 / 0.34, not one third each. *)
Lemma short_text_defaults_counterexample :
  let a := analyze_transcript false (fun _ => (1#3, 1#3, 1#3)) (fun _ => 0) "" in
  finbert_positive a == 33#100 /\ ~ (finbert_positive a == 1#3).
Proof. vm_compute. split; [reflexivity|]. intros H. discriminate. Qed.

(** C6 (amended): a text that is empty or has fewer than 50 words gets the
    fixed neutral defaults, whatever the model and the fallback would say:
    compound, lexicon, guidance, risk and overall are 0 and the
    distribution is 0.33 / 0.33 / 0.34. *)
Theorem short_text_neutral_defaults (use_finbert : bool)
    (finbert_probs : string -> Q * Q * Q) (polarity : string -> Q)
    (text : string)
    (Hshort : (String.eqb text "" || Nat.ltb (length (py_split text)) 50)%bool = true) :
  analyze_transcript use_finbert finbert_probs polarity text =
    {| finbert_score := 0; finbert_positive := 33#100;
       finbert_negative := 33#100; finbert_neutral := 34#100;
       keyword_sentiment := 0; guidance := 0; risk := 0;
       overall_sentiment := 0 |}.
Proof.
  unfold analyze_transcript, too_short. rewrite Hshort. reflexivity.
Qed.

Lemma short_text_neutral_defaults_witness :
  (String.eqb (join (repeat "weak" 49)) "" || Nat.ltb (length (py_split (join (repeat "weak" 49)))) 50)%bool = true /\
  analyze_transcript true (fun _ => (1#2, 1#4, 1#4)) (fun _ => 1)
    (join (repeat "weak" 49)) =
    {| finbert_score := 0; finbert_positive := 33#100;
       finbert_negative := 33#100; finbert_neutral := 34#100;
       keyword_sentiment := 0; guidance := 0; risk := 0;
       overall_sentiment := 0 |}.
Proof.
  split; [vm_compute; reflexivity|].
  apply short_text_neutral_defaults. vm_compute. reflexivity.
Defined.

End CompositeFacts.

(* ------------------------------------------------------------------ *)
(** ** The guidance detector *)
(* ------------------------------------------------------------------ *)
Module GuidanceFacts.
Import Text Scorer.
Local Open Scope Q_scope.

Lemma prefix_app (p s : string) :
  is_prefix p s = true -> exists r, s = String.append p r.
Proof.
  revert s. induction p as [|a p IH]; intros s H.
  - exists s. reflexivity.
  - destruct s as [|b s]; simpl in H; [discriminate|].
    apply andb_true_iff in H as [Hab H]. apply Ascii.eqb_eq in Hab. subst b.
    destruct (IH s H) as [r ->]. exists r. reflexivity.
Qed.

Lemma contains_app (p s : string) :
  contains p s = true -> exists a r, s = String.append a (String.append p r).
Proof.
  induction s as [|c s IH]; intros H; cbn [contains] in H.
  - apply orb_true_iff in H as [H|H]; [|discriminate].
    destruct (prefix_app _ _ H) as [r Hr]. exists EmptyString, r. exact Hr.
  - apply orb_true_iff in H as [H|H].
    + destruct (prefix_app _ _ H) as [r Hr]. exists EmptyString, r. exact Hr.
    + destruct (IH H) as (a & r & ->). exists (String c a), r. reflexivity.
Qed.

Lemma map_chars_app (f : Ascii.ascii -> Ascii.ascii) (a b : string) :
  map_chars f (String.append a b) = String.append (map_chars f a) (map_chars f b).
Proof. induction a as [|c a IH]; simpl; [reflexivity|]. now rewrite IH. Qed.

Lemma search_dotstar_app (a b x s : string) :
  search_dotstar a b s = true -> search_dotstar a b (String.append x s) = true.
Proof.
  intros H. induction x as [|c x IH]; simpl; [exact H|].
  rewrite IH. apply orb_true_r.
Qed.

(** A text holding the phrase "raised guidance" matches [rais.*guidance]. *)
Lemma raised_guidance_matches (text : string) :
  contains "raised guidance" text = true ->
  re_search (DotStar "rais" "guidance") (lower text) = true.
Proof.
  intros H. destruct (contains_app _ _ H) as (a & r & ->).
  unfold lower. rewrite !map_chars_app. simpl re_search.
  apply search_dotstar_app. reflexivity.
Qed.

(** C7 (counterexample): in "our executive team raised guidance" the
    pattern [cut.*guidance] matches inside "executive", so the text has a
    raising phrase, no lowering phrase, and still scores 0.0. *)
Lemma guidance_raised_counterexample :
  let t := "our executive team raised guidance" in
  contains "raised guidance" t = true /\
  pos_matches t = 1%nat /\ neg_matches t = 1%nat /\
  detect_guidance t = 0 /\ detect_guidance t <> 1.
Proof. vm_compute. repeat split. discriminate. Qed.

(** C7 (amended): the detector returns 1, -1 or 0; 1 exactly when the
    raise/beat patterns match strictly more often than the lower/miss
    patterns on the lowercased text, -1 exactly when the latter match
    strictly more often, 0 on a tie.  A text containing "raised guidance"
    on which no lower/miss pattern matches yields 1; the patterns are
    unanchored [a.*b] searches, so e.g. [cut.*guidance] also fires inside
    a word such as "executive". *)
Theorem detect_guidance_rule (text : string) :
  (detect_guidance text = 1 \/ detect_guidance text = -1 \/ detect_guidance text = 0) /\
  (detect_guidance text = 1 <-> (neg_matches text < pos_matches text)%nat) /\
  (detect_guidance text = -1 <-> (pos_matches text < neg_matches text)%nat) /\
  (detect_guidance text = 0 <-> pos_matches text = neg_matches text) /\
  (contains "raised guidance" text = true -> neg_matches text = 0%nat ->
     detect_guidance text = 1).
Proof.
  unfold detect_guidance.
  destruct (Nat.ltb_spec (neg_matches text) (pos_matches text)) as [H1|H1];
  [|destruct (Nat.ltb_spec (pos_matches text) (neg_matches text)) as [H2|H2]].
  - repeat split; try intros; try discriminate; try lia; auto.
  - repeat split; try intros; try discriminate; try lia; auto.
  - repeat split; try intros; try discriminate; try lia; auto.
    exfalso. match goal with Hr : contains _ _ = true |- _ =>
      pose proof (raised_guidance_matches text Hr) as Hm end.
    assert (Hp : (1 <= pos_matches text)%nat).
    { unfold pos_matches, positive_patterns. cbn [List.filter]. rewrite Hm.
      cbn [length]. lia. }
    lia.
Qed.

End GuidanceFacts.

(* ------------------------------------------------------------------ *)
(** ** The ledger *)
(* ------------------------------------------------------------------ *)
Module LedgerFacts.
Import Text Ledger.

Lemma entry_of_mark (L : Processed) (c q now : string) md (c2 q2 : string) :
  entry_of (mark_processed L c q now md) c2 q2 =
    if decide (upper c2 = upper c /\ q2 = q)
    then Some {| timestamp := now;
                 metadata := match md with Some m => m | None => [] end |}
    else entry_of L c2 q2.
Proof.
  unfold entry_of, mark_processed.
  destruct (decide (upper c2 = upper c)) as [Hc|Hc].
  - rewrite Hc, lookup_insert_eq.
    destruct (decide (q2 = q)) as [->|Hq].
    + rewrite lookup_insert_eq, decide_True by auto. reflexivity.
    + rewrite lookup_insert_ne by congruence.
      rewrite decide_False by tauto.
      destruct (L !! upper c); [reflexivity|apply lookup_empty].
  - rewrite lookup_insert_ne by congruence.
    rewrite decide_False by tauto. reflexivity.
Qed.

Lemma is_processed_entry (L : Processed) (c q : string) :
  is_processed L c q = match entry_of L c q with Some _ => true | None => false end.
Proof. unfold is_processed, entry_of. destruct (L !! upper c); reflexivity. Qed.

(** C9: after [mark_processed(c, q, metadata)], [is_processed(c', q)] holds
    for every [c'] with the same upper-case form as [c]; for a quarter
    [q'] other than [q] (for instance [q] in another letter case) the
    answer is what it was before, so it stays False on a ledger that did
    not hold [(c, q')]; every other (company, quarter) entry is unchanged. *)
Theorem ledger_case_rules (L : Processed) (c q now : string)
    (md : option (list (string * Q))) :
  let L' := mark_processed L c q now md in
  (forall c', upper c' = upper c -> is_processed L' c' q = true) /\
  (forall q', q' <> q -> is_processed L' c q' = is_processed L c q') /\
  (forall q', q' <> q -> is_processed L c q' = false -> is_processed L' c q' = false) /\
  (forall c2 q2, upper c2 <> upper c \/ q2 <> q -> entry_of L' c2 q2 = entry_of L c2 q2).
Proof.
  cbv zeta. split; [|split; [|split]].
  - intros c' Hc. rewrite is_processed_entry, entry_of_mark.
    rewrite decide_True by auto. reflexivity.
  - intros q' Hq. rewrite !is_processed_entry, entry_of_mark.
    rewrite decide_False by tauto. reflexivity.
  - intros q' Hq Hf. rewrite is_processed_entry, entry_of_mark.
    rewrite decide_False by tauto. rewrite <- is_processed_entry. exact Hf.
  - intros c2 q2 H. rewrite entry_of_mark. rewrite decide_False by tauto.
    reflexivity.
Qed.


End LedgerFacts.

(* ------------------------------------------------------------------ *)
(** ** Idempotent re-runs *)
(* ------------------------------------------------------------------ *)
Module RunFacts.
Import Text Scorer Ledger Engine LedgerFacts.

Section Env.
Variable get_transcript_urls : string -> list Transcript.
Variable extract_pdf_from_url : string -> option string.
Variable analyze : string -> Analysis.
Variable get_company : string -> option string.
Variable now : string.












End Env.


End RunFacts.

(* ------------------------------------------------------------------ *)
(** ** Flushing results into the durable dataset *)
(* ------------------------------------------------------------------ *)
Module SaveFacts.
Import Text Scorer Engine CompositeFacts.
Local Open Scope Q_scope.

Lemma read_cell_numeric (c : Cell) :
  cell_numeric c = true -> exists z, read_cell c = CInt z.
Proof.
  destruct c as [s|z]; simpl; [|eauto].
  destruct (read_int s) as [z|]; [eauto|discriminate].
Qed.

Lemma length_load_existing_data (D : list Row) :
  length (load_existing_data D) = length D.
Proof. unfold load_existing_data. apply length_map. Qed.

(** When every stored [Year] reads as a number, every stored row comes
    back from [pd.read_excel] with an [int] year. *)
Lemma load_existing_years_int (D : list Row) :
  forallb cell_numeric (map r_year D) = true ->
  Forall (fun r => exists z, r_year r = CInt z) (load_existing_data D).
Proof.
  intros H. unfold load_existing_data. rewrite H.
  apply List.Forall_forall. intros r Hr. apply in_map_iff in Hr as (r0 & <- & Hr0).
  simpl. apply read_cell_numeric.
  rewrite forallb_forall in H. apply H, in_map, Hr0.
Qed.

(** An [int] year never equals a [str] year, so such a row matches no
    key of a batch whose years are strings. *)
Lemma key_in_int_year (r : Row) (rs : list Row) :
  (exists z, r_year r = CInt z) ->
  Forall (fun n => exists s, r_year n = CStr s) rs ->
  key_in (key r) rs = false.
Proof.
  intros [z Hz] Hrs. unfold key_in. apply not_true_is_false. rewrite existsb_exists.
  intros (n & Hn & Hk). rewrite List.Forall_forall in Hrs. destruct (Hrs n Hn) as [s Hs].
  unfold key_eqb, key in Hk. simpl in Hk. rewrite Hz, Hs in Hk.
  simpl in Hk. rewrite andb_false_r in Hk. discriminate.
Qed.

Lemma filter_keeps_int_years (stored rs : list Row) :
  Forall (fun r => exists z, r_year r = CInt z) stored ->
  Forall (fun n => exists s, r_year n = CStr s) rs ->
  List.filter (fun r => negb (key_in (key r) rs)) stored = stored.
Proof.
  induction stored as [|r stored IH]; intros Hst Hrs; simpl; [reflexivity|].
  inversion Hst as [|? ? Hr Hst']; subst.
  rewrite (key_in_int_year r rs Hr Hrs). simpl. f_equal. exact (IH Hst' Hrs).
Qed.

(** C4 (code bug): flushing a non-empty batch built by [analyze_company]
    (its [Year] values are the strings of the transcript references) over
    a stored sheet whose [Year] column holds numbers drops no stored row:
    [_load_existing_data] reads that column back as [int], and the
    membership test [(row['Company'], row['Year'], row['Month']) in ...]
    compares it with the batch's [str] years, which never match.  The
    sheet written is every stored row (with its year as read back) plus
    every batch row, so a key present in both keeps both rows. *)
Theorem save_results_keeps_stored_rows (existing new_results : list Row)
    (Hne : new_results <> [])
    (Hyears : forallb cell_numeric (map r_year existing) = true)
    (Hstr : Forall (fun n => exists s, r_year n = CStr s) new_results) :
  Permutation (save_results existing new_results)
    (map set_category (load_existing_data existing ++ new_results)) /\
  length (save_results existing new_results) = (length existing + length new_results)%nat.
Proof.
  assert (Hp : Permutation (save_results existing new_results)
                 (map set_category (load_existing_data existing ++ new_results))).
  { unfold save_results. destruct new_results as [|n ns] eqn:En; [congruence|].
    rewrite <- En in *. rewrite merge_sort_Permutation.
    pose proof (load_existing_years_int existing Hyears) as Hint.
    destruct (load_existing_data existing) as [|e es] eqn:Ee; [reflexivity|].
    rewrite (filter_keeps_int_years _ _ Hint Hstr). reflexivity. }
  split; [exact Hp|].
  rewrite (Permutation_length Hp), length_map, length_app, length_load_existing_data.
  reflexivity.
Qed.

Lemma save_results_keeps_stored_rows_witness :
  let row := fun v : Q =>
    {| r_company := CStr "EntityA"; r_sector := "IT"; r_year := CStr "2020";
       r_month := "Jan"; r_overall := v; r_polarity := v; r_keyword := 0;
       r_guidance := 0; r_risk := 0; r_pos := 1#3; r_neg := 1#3; r_neu := 1#3;
       r_file_count := 1%nat; r_analyzed_at := "t"; r_category := "" |} in
  let sheet1 := save_results [] [row (1#2)] in
  let sheet2 := save_results sheet1 [row (1#10)] in
  [row (1#10)] <> [] /\ forallb cell_numeric (map r_year sheet1) = true /\
  Permutation sheet2 (map set_category (load_existing_data sheet1 ++ [row (1#10)])) /\
  length sheet2 = 2%nat /\
  map (fun r => (key r, r_overall r)) sheet2 =
    [((CStr "EntityA", CStr "2020", "Jan"), 1#10);
     ((CStr "EntityA", CInt 2020, "Jan"), 1#2)].
Proof.
  cbv zeta.
  assert (H1 : [{| r_company := CStr "EntityA"; r_sector := "IT"; r_year := CStr "2020";
       r_month := "Jan"; r_overall := 1#10; r_polarity := 1#10; r_keyword := 0;
       r_guidance := 0; r_risk := 0; r_pos := 1#3; r_neg := 1#3; r_neu := 1#3;
       r_file_count := 1%nat; r_analyzed_at := "t"; r_category := "" |}] <> [])
    by discriminate.
  assert (H2 : forallb cell_numeric (map r_year (save_results []
     [{| r_company := CStr "EntityA"; r_sector := "IT"; r_year := CStr "2020";
       r_month := "Jan"; r_overall := 1#2; r_polarity := 1#2; r_keyword := 0;
       r_guidance := 0; r_risk := 0; r_pos := 1#3; r_neg := 1#3; r_neu := 1#3;
       r_file_count := 1%nat; r_analyzed_at := "t"; r_category := "" |}])) = true)
    by (vm_compute; reflexivity).
  assert (H3 : Forall (fun n => exists s, r_year n = CStr s)
     [{| r_company := CStr "EntityA"; r_sector := "IT"; r_year := CStr "2020";
       r_month := "Jan"; r_overall := 1#10; r_polarity := 1#10; r_keyword := 0;
       r_guidance := 0; r_risk := 0; r_pos := 1#3; r_neg := 1#3; r_neu := 1#3;
       r_file_count := 1%nat; r_analyzed_at := "t"; r_category := "" |}])
    by (repeat constructor; eexists; reflexivity).
  destruct (save_results_keeps_stored_rows _ _ H1 H2 H3) as [Hp Hl].
  split; [exact H1|]. split; [exact H2|]. split; [exact Hp|].
  split; [exact Hl|]. vm_compute. reflexivity.
Defined.

Lemma gtb_false (x y : Q) : gtb x y = false -> x <= y.
Proof. unfold gtb. intros H. apply Qle_bool_iff. destruct (Qle_bool x y); [reflexivity|discriminate]. Qed.

Lemma ltb_false (x y : Q) : ltb x y = false -> y <= x.
Proof. unfold ltb. intros H. apply Qle_bool_iff. destruct (Qle_bool y x); [reflexivity|discriminate]. Qed.

(** C8: the label is 'Positive' exactly above 0.2, 'Negative' exactly
    below -0.1 and 'Neutral' on [[-0.1, 0.2]]; the upload endpoint uses
    the same rule, and every row of a flushed dataset carries the label of
    its own composite score. *)
Theorem category_thresholds :
  (forall x : Q,
     (sentiment_category x = "Positive" <-> 2#10 < x) /\
     (sentiment_category x = "Negative" <-> x < -1#10) /\
     (sentiment_category x = "Neutral" <-> -1#10 <= x /\ x <= 2#10)) /\
  (forall x : Q, api_upload_category x = sentiment_category x) /\
  (forall (existing new_results : list Row) (r : Row),
     new_results <> [] -> In r (save_results existing new_results) ->
     r_category r = sentiment_category (r_overall r)).
Proof.
  split; [|split].
  - intros x. unfold sentiment_category.
    destruct (gtb x (2#10)) eqn:E1.
    + apply gtb_true in E1.
      repeat split; intros; try discriminate; try reflexivity; try lra;
        exfalso; lra.
    + apply gtb_false in E1. destruct (ltb x (-1#10)) eqn:E2.
      * apply ltb_true in E2.
        repeat split; intros; try discriminate; try reflexivity; try lra;
          exfalso; lra.
      * apply ltb_false in E2.
        repeat split; intros; try discriminate; try reflexivity; try lra;
          try (exfalso; lra); tauto.
  - intros x. reflexivity.
  - intros existing new_results r Hne Hin. unfold save_results in Hin.
    destruct new_results as [|n ns]; [congruence|].
    apply (Permutation_in _ (merge_sort_Permutation _ _)) in Hin.
    apply in_map_iff in Hin as (r0 & <- & _). reflexivity.
Qed.

End SaveFacts.

(* ------------------------------------------------------------------ *)
(** ** Document locator *)
(* ------------------------------------------------------------------ *)
Module FetcherFacts.
Import Text Fetcher.

Lemma filter_links_step sy ey seen l ls :
  filter_links sy ey seen (l :: ls) = filter_links sy ey seen ls \/
  exists r, str_mem (url r) seen = false /\
    filter_links sy ey seen (l :: ls) = r :: filter_links sy ey (url r :: seen) ls.
Proof.
  cbn [filter_links]. cbv zeta.
  repeat case_match; try (left; reflexivity).
  all: right; eexists {| url := _; month := _; year := _; quarter := _ |};
    split; [|reflexivity]; cbn [url]; apply negb_true_iff; assumption.
Qed.

Lemma filter_links_fresh sy ey ls : forall seen,
  (forall r, In r (filter_links sy ey seen ls) -> str_mem (url r) seen = false) /\
  NoDup (map url (filter_links sy ey seen ls)).
Proof.
  induction ls as [|l ls IH]; intros seen.
  - split; [intros r []|constructor].
  - destruct (filter_links_step sy ey seen l ls) as [E|(r & Hr & E)]; rewrite E.
    + apply IH.
    + destruct (IH (url r :: seen)) as [H1 H2]. split.
      * intros r' [<-|Hin]; [exact Hr|].
        specialize (H1 r' Hin). cbn [str_mem existsb] in H1.
        apply orb_false_iff in H1 as [_ H1]. exact H1.
      * cbn [map]. constructor; [|exact H2].
        intros Hin. apply list_elem_of_In, in_map_iff in Hin as (r' & Eq & Hin).
        specialize (H1 r' Hin). cbn [str_mem existsb] in H1.
        rewrite Eq, String.eqb_refl in H1. discriminate.
Qed.

(** C10: the locator never returns two references with the same resolved
    URL, but its host filter is a substring test on the whole URL: a
    transcript link of January 2024 on the host [example.com] whose path
    contains [bseindia.com] is returned, while a link on [www.bseindia.com]
    is, as intended, also returned. *)
Theorem get_transcript_urls_foreign_host :
  (forall links, NoDup (map url (get_transcript_urls links))) /\
  let foreign := "https://example.com/bseindia.com/transcript.pdf" in
  let bse := "https://www.bseindia.com/xml-data/corpfiling/AttachLive/q3.pdf" in
  let refs := get_transcript_urls
    [ {| href := foreign; link_text := "Transcript"; previous_texts := ["Jan 2024"] |};
      {| href := bse; link_text := "Transcript"; previous_texts := ["Apr 2024"] |} ] in
  map url refs = [foreign; bse] /\
  map quarter refs = ["Jan_2024"; "Apr_2024"] /\
  url_host foreign = "example.com" /\ hosted_on_bse foreign = false /\
  url_host bse = "www.bseindia.com" /\ hosted_on_bse bse = true.
Proof.
  split.
  - intros links. apply (filter_links_fresh 2015 2026 links []).
  - vm_compute. repeat split.
Qed.
End FetcherFacts.

(* ------------------------------------------------------------------ *)
(** ** Ledger statistics, batches and resets *)
(* ------------------------------------------------------------------ *)
Module TrackerFacts.
Import Text Ledger Tracker LedgerFacts.

Lemma total_items_insert (P : Processed) (k : string) (v : gmap string Entry) :
  total_items (<[k:=v]> P) = (size v + total_items (delete k P))%nat.
Proof.
  rewrite <- insert_delete_eq. unfold total_items.
  rewrite map_fold_insert_L; [reflexivity| intros; lia | apply lookup_delete_eq].
Qed.

Lemma total_items_delete (P : Processed) (k : string) (v : gmap string Entry) :
  P !! k = Some v -> total_items P = (size v + total_items (delete k P))%nat.
Proof.
  intros H. unfold total_items.
  apply (map_fold_delete_L (fun _ (qs : gmap string Entry) acc => size qs + acc) 0 k v P);
    [intros; lia|exact H].
Qed.

Lemma is_processed_mark (L : Processed) (c0 q0 now : string) md (c q : string) :
  is_processed (mark_processed L c0 q0 now md) c q =
    (String.eqb (upper c) (upper c0) && String.eqb q q0) || is_processed L c q.
Proof.
  rewrite !is_processed_entry, entry_of_mark.
  destruct (decide (upper c = upper c0 /\ q = q0)) as [[-> ->]|H].
  - rewrite !String.eqb_refl. reflexivity.
  - destruct (String.eqb_spec (upper c) (upper c0)), (String.eqb_spec q q0);
      try tauto; reflexivity.
Qed.

(** one [mark_processed] adds one record exactly when the pair is new *)
Lemma total_items_mark (L : Processed) (c q now : string) md :
  total_items (mark_processed L c q now md) =
    (total_items L + if is_processed L c q then 0 else 1)%nat.
Proof.
  unfold mark_processed. rewrite total_items_insert, map_size_insert.
  unfold is_processed. destruct (L !! upper c) as [v|] eqn:E.
  - rewrite (total_items_delete L (upper c) v E).
    destruct (v !! q); simpl; lia.
  - rewrite delete_id by exact E. rewrite lookup_empty, map_size_empty. simpl. lia.
Qed.

Lemma size_mark (L : Processed) (c q now : string) md :
  size (mark_processed L c q now md) =
    (size L + match L !! upper c with Some _ => 0 | None => 1 end)%nat.
Proof.
  unfold mark_processed. rewrite map_size_insert.
  destruct (L !! upper c); simpl; lia.
Qed.

(** X1: after [mark_processed(c, q)] the statistics count one more
    processed quarter exactly when [(c, q)] was not yet recorded, and one
    more company exactly when no quarter of [c] (up to letter case) was. *)
Theorem mark_processed_stats (S : State) (c q now : string) md :
  stats (st_mark_processed S c q now md) =
    {| total_processed :=
         total_items (processed S) + if is_processed (processed S) c q then 0 else 1;
       total_companies :=
         size (processed S) + match processed S !! upper c with Some _ => 0 | None => 1 end |}.
Proof.
  unfold st_mark_processed, with_processed, update_stats. cbn [stats].
  rewrite total_items_mark, size_mark. reflexivity.
Qed.

Lemma batch_loop_fold (P : Processed) items :
  batch_loop P items =
    fold_left (fun P' '(c, q, md, now) => mark_processed P' c q now md) items P.
Proof.
  revert P. induction items as [|[[[c q] md] now] items IH]; intros P; [reflexivity|].
  simpl. apply IH.
Qed.

Lemma fold_mark_processed items : forall (P : Processed) (c q : string),
  is_processed (fold_left (fun P' '(c, q, md, now) => mark_processed P' c q now md) items P) c q =
    is_processed P c q ||
    existsb (fun '(c', q', _, _) => String.eqb (upper c') (upper c) && String.eqb q' q) items.
Proof.
  induction items as [|[[[c0 q0] md] now] items IH]; intros P c q.
  - simpl. rewrite orb_false_r. reflexivity.
  - simpl. rewrite IH, is_processed_mark.
    rewrite (String.eqb_sym (upper c) (upper c0)), (String.eqb_sym q q0).
    destruct (String.eqb (upper c0) (upper c)), (String.eqb q0 q), (is_processed P c q);
      reflexivity.
Qed.

Lemma filter_all_false {A} (f : A -> bool) (l : list A) :
  (forall x, In x l -> f x = false) -> List.filter f l = [].
Proof.
  induction l as [|x l IH]; intros H; [reflexivity|].
  simpl. rewrite (H x (or_introl eq_refl)). apply IH. intros y Hy. apply H. now right.
Qed.

(** X2: [mark_batch_processed(items)] leaves the same ledger as calling
    [mark_processed] on the items one after the other; afterwards a pair
    is processed exactly when it was before or some item names it (with
    the company up to letter case), so [get_unprocessed] on the items'
    own pairs returns nothing. *)
Theorem mark_batch_processed_spec (S : State) items :
  let S' := mark_batch_processed S items in
  processed S' =
    fold_left (fun P '(c, q, md, now) => mark_processed P c q now md) items (processed S) /\
  (forall c q, is_processed (processed S') c q =
     is_processed (processed S) c q ||
     existsb (fun '(c', q', _, _) => String.eqb (upper c') (upper c) && String.eqb q' q) items) /\
  get_unprocessed S' (map (fun '(c, q, _, _) => (c, q)) items) = [].
Proof.
  cbv zeta. unfold mark_batch_processed, with_processed. cbn [processed].
  rewrite batch_loop_fold.
  split; [reflexivity|]. split.
  - intros c q. apply fold_mark_processed.
  - unfold get_unprocessed. cbn [processed]. apply filter_all_false.
    intros [c q] Hin. apply in_map_iff in Hin as ([[[c' q'] md] now] & E & Hin).
    injection E as <- <-. rewrite fold_mark_processed.
    assert (Hex : existsb (fun '(c0, q0, _, _) =>
                     String.eqb (upper c0) (upper c') && String.eqb q0 q') items = true).
    { apply existsb_exists. exists (c', q', md, now). split; [exact Hin|].
      rewrite !String.eqb_refl. reflexivity. }
    rewrite Hex, orb_true_r. reflexivity.
Qed.

(** X3: [clear_company(c)] forgets every quarter of [c] (and of every
    spelling of [c] with the same upper-case form) and no other entry;
    the statistics lose that company and its quarters, and a company
    without entries leaves the state untouched. *)
Theorem clear_company_spec (S : State) (c : string) :
  let S' := clear_company S c in
  (forall c' q, is_processed (processed S') c' q =
     if String.eqb (upper c') (upper c) then false else is_processed (processed S) c' q) /\
  match processed S !! upper c with
  | Some qs => (total_processed (stats S') + size qs = total_items (processed S))%nat /\
               Nat.succ (total_companies (stats S')) = size (processed S)
  | None => S' = S
  end.
Proof.
  cbv zeta. unfold clear_company, with_processed.
  destruct (processed S !! upper c) as [qs|] eqn:E; cbn [processed stats update_stats
    total_processed total_companies].
  - split.
    + intros c' q. unfold is_processed. rewrite lookup_delete.
      destruct (String.eqb_spec (upper c') (upper c)) as [H|H].
      * rewrite decide_True by congruence. reflexivity.
      * rewrite decide_False by congruence. reflexivity.
    + split.
      * rewrite (total_items_delete (processed S) (upper c) qs E). lia.
      * rewrite map_size_delete, E.
        destruct (size (processed S)) eqn:Hs; [|reflexivity].
        apply map_size_empty_inv in Hs. rewrite Hs, lookup_empty in E. discriminate.
  - split; [|reflexivity].
    intros c' q. destruct (String.eqb_spec (upper c') (upper c)) as [H|H]; [|reflexivity].
    unfold is_processed. rewrite H, E. reflexivity.
Qed.

End TrackerFacts.

(* ------------------------------------------------------------------ *)
(** ** The [new_quarters] count of a run *)
(* ------------------------------------------------------------------ *)
Module RunCountFacts.
Import Text Scorer Ledger Tracker Engine EngineExc TrackerFacts.

Section Env.
Variable get_transcript_urls : string -> list Transcript.
Variable extract_pdf_from_url : string -> option string.
Variable analyze : string -> option Analysis.
Variable get_company : string -> option string.
Variable now : string.

(** the rows returned by a loop that finishes count its new records; a
    loop left by an exception may have added records of its own *)
Lemma analyze_loop_exc_count code sector ts L :
  let '(ors, L') := analyze_loop_exc extract_pdf_from_url analyze now code sector false ts L in
  match ors with
  | Some rs => total_items L' = (total_items L + length rs)%nat
  | None => (total_items L <= total_items L')%nat
  end.
Proof.
  revert L. induction ts as [|t ts IH]; intros L; simpl; [lia|].
  destruct (is_processed L code (t_quarter t)) eqn:Hp; cbn [negb andb]; [apply IH|].
  destruct (extract_pdf_from_url (t_url t)) as [text|]; [|apply IH].
  destruct (too_short text 100); [apply IH|].
  destruct (analyze text) as [a|]; [|lia].
  set (L1 := mark_processed L code (t_quarter t) now _).
  pose proof (IH L1) as IH1.
  assert (H1 : total_items L1 = S (total_items L)).
  { unfold L1. rewrite total_items_mark, Hp. lia. }
  destruct (analyze_loop_exc extract_pdf_from_url analyze now code sector false ts L1)
    as [[rs|] L2]; cbn [option_map length]; lia.
Qed.

Lemma analyze_loop_exc_some code sector ts L :
  (forall text, analyze text <> None) ->
  fst (analyze_loop_exc extract_pdf_from_url analyze now code sector false ts L) <> None.
Proof.
  intros Ht. revert L. induction ts as [|t ts IH]; intros L; simpl; [discriminate|].
  destruct (is_processed L code (t_quarter t)); cbn [negb andb]; [apply IH|].
  destruct (extract_pdf_from_url (t_url t)) as [text|]; [|apply IH].
  destruct (too_short text 100); [apply IH|].
  destruct (analyze text) as [a|] eqn:Ea; [|exfalso; exact (Ht text Ea)].
  match goal with |- context [analyze_loop_exc _ _ _ _ _ _ ts ?L1] =>
    pose proof (IH L1) as IH1; destruct (analyze_loop_exc _ _ _ _ _ _ ts L1) as [[rs|] L2] end;
  simpl in *; congruence.
Qed.

Lemma analyze_company_exc_count L c :
  let '(ors, L1) := analyze_company_exc get_transcript_urls extract_pdf_from_url analyze
                      get_company now L c false in
  match ors with
  | Some rs => total_items L1 = (total_items L + length rs)%nat
  | None => (total_items L <= total_items L1)%nat
  end.
Proof.
  unfold analyze_company_exc. destruct (get_transcript_urls c); [simpl; lia|].
  apply analyze_loop_exc_count.
Qed.

Lemma analyze_company_exc_some L c :
  (forall text, analyze text <> None) ->
  fst (analyze_company_exc get_transcript_urls extract_pdf_from_url analyze
         get_company now L c false) <> None.
Proof.
  intros Ht. unfold analyze_company_exc. destruct (get_transcript_urls c); [discriminate|].
  apply analyze_loop_exc_some, Ht.
Qed.

Lemma run_loop_exc_count i cs L D acc :
  let '(acc', L', _) := run_loop_exc get_transcript_urls extract_pdf_from_url analyze
                          get_company now i cs L D acc in
  (total_items L + length acc' <= total_items L' + length acc)%nat /\
  ((forall text, analyze text <> None) ->
     (total_items L' + length acc)%nat = (total_items L + length acc')%nat).
Proof.
  revert i L D acc. induction cs as [|c cs IH]; intros i L D acc; simpl; [lia|].
  pose proof (analyze_company_exc_count L c) as Hc.
  pose proof (analyze_company_exc_some L c) as Hs.
  destruct (analyze_company_exc _ _ _ _ _ L c false) as [[[|r rs']|] L1].
  - pose proof (IH (S i) L1 D acc) as H.
    destruct (run_loop_exc _ _ _ _ _ (S i) cs L1 D acc) as [[acc' L'] D'].
    simpl in Hc. destruct H as [H1 H2]. split; [lia|]. intros Ht. specialize (H2 Ht). lia.
  - match goal with |- context [run_loop_exc _ _ _ _ _ (S i) cs L1 ?D1 ?acc1] =>
      pose proof (IH (S i) L1 D1 acc1) as H;
      destruct (run_loop_exc _ _ _ _ _ (S i) cs L1 D1 acc1) as [[acc' L'] D'] end.
    rewrite length_app in H. destruct H as [H1 H2].
    split; [lia|]. intros Ht. specialize (H2 Ht). lia.
  - pose proof (IH (S i) L1 D acc) as H.
    destruct (run_loop_exc _ _ _ _ _ (S i) cs L1 D acc) as [[acc' L'] D'].
    destruct H as [H1 H2]. split; [lia|].
    intros Ht. exfalso. exact (Hs Ht eq_refl).
Qed.
End Env.

(** X4: the ['new_quarters'] count reported by [run_incremental] never
    exceeds the number of records the run added to the ledger; it is
    exactly that number (so [total_processed] grows by the count) when
    [analyze_transcript] raises on no text. *)
Theorem run_incremental_new_quarters
    (get_transcript_urls : string -> list Transcript)
    (extract_pdf_from_url : string -> option string)
    (analyze : string -> option Analysis) (get_company : string -> option string)
    (now : string) (L0 : Processed) (D0 : list Row) (cs : list string) :
  let r := run_incremental_exc get_transcript_urls extract_pdf_from_url analyze
             get_company now L0 D0 cs in
  (total_items L0 + new_quarters r <= total_items (ledger r))%nat /\
  ((forall text, analyze text <> None) ->
     total_items (ledger r) = (total_items L0 + new_quarters r)%nat).
Proof.
  cbv zeta. unfold run_incremental_exc.
  pose proof (run_loop_exc_count get_transcript_urls extract_pdf_from_url analyze
                get_company now 1 cs L0 D0 []) as H.
  destruct (run_loop_exc _ _ _ _ _ 1 cs L0 D0 []) as [[acc L1] D1].
  cbn [ledger new_quarters]. simpl in H. destruct H as [H1 H2].
  split; [lia|]. intros Ht. specialize (H2 Ht). lia.
Qed.

End RunCountFacts.

(* ------------------------------------------------------------------ *)
(** ** Keyword sentiment, risk score and text cleaning *)
(* ------------------------------------------------------------------ *)
Module ScorerExtraFacts.
Import Text Scorer RoundFacts CompositeFacts SaveFacts.
Local Open Scope Q_scope.

Lemma round3_nonneg (x : Q) : 0 <= x -> 0 <= round3 x.
Proof.
  intros Hx.
  assert (Hf : (0 <= Qfloor (x * 1000))%Z).
  { change 0%Z with (Qfloor 0). apply Qfloor_resp_le. lra. }
  rewrite Zle_Qle in Hf. change (inject_Z 0) with 0 in Hf.
  destruct (round3_cases x) as [[E _]|[E _]]; rewrite E;
    rewrite ?inject_Z_plus; change (inject_Z 1) with 1;
    unfold Qdiv; change (/ 1000) with (1#1000);
    generalize dependent (inject_Z (Qfloor (x * 1000))); intros; lra.
Qed.

Lemma round3_nonpos (x : Q) : x <= 0 -> round3 x <= 0.
Proof.
  intros Hx. destruct (floor_facts (x * 1000)) as [F1 F2].
  set (f := Qfloor (x * 1000)) in *.
  destruct (round3_cases x) as [[E H]|[E H]]; rewrite E; fold f in H |- *.
  - unfold Qdiv; change (/ 1000) with (1#1000).
    generalize dependent (inject_Z f). intros. lra.
  - assert (Hf : (f <= -1)%Z).
    { assert (Hq : inject_Z f < inject_Z 0).
      { change (inject_Z 0) with 0. lra. }
      rewrite <- Zlt_Qlt in Hq. lia. }
    rewrite Zle_Qle in Hf. change (inject_Z (-1)) with (-1) in Hf.
    rewrite inject_Z_plus. change (inject_Z 1) with 1.
    unfold Qdiv; change (/ 1000) with (1#1000).
    generalize dependent (inject_Z f). intros. lra.
Qed.

(** [max(-1, min(1, s))] leaves a value of [[-1, 1]] unchanged. *)
Lemma clamp_id (s : Q) :
  -1 <= s -> s <= 1 -> py_max (-1) (py_min 1 s) == s.
Proof.
  intros H1 H2. unfold py_min. destruct (ltb s 1) eqn:E.
  - unfold py_max. destruct (gtb s (-1)) eqn:E'.
    + reflexivity.
    + apply gtb_false in E'. lra.
  - apply ltb_false in E. unfold py_max.
    destruct (gtb 1 (-1)) eqn:E'; [lra|discriminate].
Qed.

Lemma inject_nat_nonneg (n : nat) : 0 <= inject_Z (Z.of_nat n).
Proof. change 0 with (inject_Z 0). rewrite <- Zle_Qle. lia. Qed.

Lemma inject_nat_le (m n : nat) :
  (m <= n)%nat -> inject_Z (Z.of_nat m) <= inject_Z (Z.of_nat n).
Proof. intros H. rewrite <- Zle_Qle. lia. Qed.

(** The ratio [(pos - neg) / (pos + neg)] of [get_keyword_sentiment]. *)
Lemma keyword_ratio (p n : nat) :
  (p + n <> 0)%nat ->
  let s := (inject_Z (Z.of_nat p) - inject_Z (Z.of_nat n))
           / inject_Z (Z.of_nat (p + n)) in
  -1 <= s /\ s <= 1 /\ ((p <= n)%nat -> s <= 0) /\ ((n <= p)%nat -> 0 <= s).
Proof.
  intros Hpn s.
  assert (Ht : 0 < inject_Z (Z.of_nat (p + n))).
  { change 0 with (inject_Z 0). rewrite <- Zlt_Qlt. lia. }
  assert (Hsum : inject_Z (Z.of_nat (p + n))
                 == inject_Z (Z.of_nat p) + inject_Z (Z.of_nat n)).
  { rewrite Nat2Z.inj_add, inject_Z_plus. reflexivity. }
  pose proof (inject_nat_nonneg p). pose proof (inject_nat_nonneg n).
  split; [|split; [|split]].
  - apply Qle_shift_div_l; [exact Ht|]. lra.
  - apply Qle_shift_div_r; [exact Ht|]. lra.
  - intros Hle. apply inject_nat_le in Hle.
    apply Qle_shift_div_r; [exact Ht|]. lra.
  - intros Hle. apply inject_nat_le in Hle.
    apply Qle_shift_div_l; [exact Ht|]. lra.
Qed.

(** X5: [get_keyword_sentiment] is [0] when the text has as many positive
    as negative keywords (none at all included); a positive (negative)
    result means strictly more positive (negative) keywords; and the
    result is within [0.0005] of [(pos - neg) / (pos + neg)]. *)
Theorem get_keyword_sentiment_spec (text : string) :
  let words := py_split (lower text) in
  let p := length (List.filter (fun w => mem w positive_keywords) words) in
  let n := length (List.filter (fun w => mem w negative_keywords) words) in
  (p = n -> get_keyword_sentiment text == 0) /\
  (0 < get_keyword_sentiment text -> (n < p)%nat) /\
  (get_keyword_sentiment text < 0 -> (p < n)%nat) /\
  ((p + n <> 0)%nat ->
     Qabs (get_keyword_sentiment text
           - (inject_Z (Z.of_nat p) - inject_Z (Z.of_nat n))
             / inject_Z (Z.of_nat (p + n))) <= 1#2000).
Proof.
  cbv zeta. unfold get_keyword_sentiment. cbv zeta.
  set (p := length (List.filter (fun w => mem w positive_keywords) (py_split (lower text)))).
  set (n := length (List.filter (fun w => mem w negative_keywords) (py_split (lower text)))).
  destruct (Nat.eqb_spec (p + n) 0) as [H0|H0].
  - split; [reflexivity|]. split; [intros H; lra|]. split; [intros H; lra|].
    intros H. lia.
  - destruct (keyword_ratio p n H0) as [Hlo [Hhi [Hneg Hpos]]].
    set (s := (inject_Z (Z.of_nat p) - inject_Z (Z.of_nat n))
              / inject_Z (Z.of_nat (p + n))) in *.
    pose proof (clamp_id s Hlo Hhi) as Hc.
    set (c := py_max (-1) (py_min 1 s)) in *.
    split; [|split; [|split]].
    + intros Heq. assert (Hs0 : c <= 0) by (rewrite Hc; apply Hneg; lia).
      assert (Hs1 : 0 <= c) by (rewrite Hc; apply Hpos; lia).
      pose proof (round3_nonpos c Hs0). pose proof (round3_nonneg c Hs1). lra.
    + intros Hr. destruct (Nat.lt_ge_cases n p) as [Hl|Hl]; [exact Hl|].
      assert (Hs0 : c <= 0) by (rewrite Hc; apply Hneg; lia).
      pose proof (round3_nonpos c Hs0). lra.
    + intros Hr. destruct (Nat.lt_ge_cases p n) as [Hl|Hl]; [exact Hl|].
      assert (Hs1 : 0 <= c) by (rewrite Hc; apply Hpos; lia).
      pose proof (round3_nonneg c Hs1). lra.
    + intros _. destruct (round3_err c). apply Qabs_Qle_condition. split; lra.
Qed.

(** X6: [calculate_risk_score] lies in [[0, 1]]; it is [0] for a text with
    no words, and [1] as soon as the risk terms occur at least once per
    hundred words. *)
Theorem calculate_risk_score_spec (text : string) :
  let words := py_split (lower text) in
  let risk_count := fold_right (fun t acc => (str_count (lower text) t + acc)%nat)
                      O risk_terms in
  0 <= calculate_risk_score text /\ calculate_risk_score text <= 1 /\
  (words = [] -> calculate_risk_score text = 0) /\
  (words <> [] -> (length words <= 100 * risk_count)%nat ->
     calculate_risk_score text == 1).
Proof.
  cbv zeta. unfold calculate_risk_score. cbv zeta.
  set (words := py_split (lower text)).
  set (rc := fold_right (fun t acc => (str_count (lower text) t + acc)%nat) O risk_terms).
  destruct (Nat.eqb_spec (length words) 0) as [H0|H0].
  - split; [lra|]. split; [lra|]. split; [reflexivity|].
    intros Hne. destruct words; [congruence|discriminate].
  - assert (Hw : 0 < inject_Z (Z.of_nat (length words))).
    { change 0 with (inject_Z 0). rewrite <- Zlt_Qlt. lia. }
    assert (Hr0 : 0 <= inject_Z (Z.of_nat rc) / inject_Z (Z.of_nat (length words))).
    { apply Qle_shift_div_l; [exact Hw|]. pose proof (inject_nat_nonneg rc). lra. }
    set (y := inject_Z (Z.of_nat rc) / inject_Z (Z.of_nat (length words))) in *.
    assert (Hm : 0 <= py_min 1 (y * 1000 / 10) /\ py_min 1 (y * 1000 / 10) <= 1).
    { unfold py_min. destruct (ltb (y * 1000 / 10) 1) eqn:E.
      - apply ltb_true in E. split; [|lra].
        unfold Qdiv. change (/ 10) with (1#10). lra.
      - split; lra. }
    destruct Hm as [Hm0 Hm1].
    pose proof (round3_nonneg _ Hm0).
    destruct (round3_range (py_min 1 (y * 1000 / 10))) as [_ Hr1]; [lra|exact Hm1|].
    split; [assumption|]. split; [assumption|]. split; [intros Hn; rewrite Hn in H0; simpl in H0; lia|].
    intros _ Hle.
    assert (Hy : 1#100 <= y).
    { apply Qle_shift_div_l; [exact Hw|].
      apply inject_nat_le in Hle. rewrite Nat2Z.inj_mul, inject_Z_mult in Hle.
      change (inject_Z (Z.of_nat 100)) with 100 in Hle. lra. }
    unfold py_min. destruct (ltb (y * 1000 / 10) 1) eqn:E.
    + apply ltb_true in E. unfold Qdiv in E. change (/ 10) with (1#10) in E. lra.
    + reflexivity.
Qed.

Lemma forall_chars_impl (f g : Ascii.ascii -> bool) (s : string) :
  (forall c, f c = true -> g c = true) ->
  forall_chars f s = true -> forall_chars g s = true.
Proof.
  intros Hfg. induction s as [|c s IH]; simpl; [reflexivity|].
  intros H. apply andb_true_iff in H as [H1 H2].
  rewrite (Hfg c H1), (IH H2). reflexivity.
Qed.

Lemma collapse_ws_chars (prev : bool) (s : string) :
  forall_chars (fun c => negb (is_ws c) || Nat.eqb (Ascii.nat_of_ascii c) 32)
    (collapse_ws prev s) = true.
Proof.
  revert prev. induction s as [|c s IH]; intros prev; simpl; [reflexivity|].
  destruct (is_ws c) eqn:Hc; [destruct prev|]; simpl; rewrite ?Hc, ?IH; reflexivity.
Qed.

Lemma keep_safe_chars (f : Ascii.ascii -> bool) (s : string) :
  forall_chars f s = true ->
  forall_chars (fun c => f c && (is_word_char c || is_ws c || is_kept_punct c))
    (keep_safe s) = true.
Proof.
  induction s as [|c s IH]; simpl; [reflexivity|].
  intros H. apply andb_true_iff in H as [H1 H2].
  destruct (is_word_char c || is_ws c || is_kept_punct c) eqn:Hc; simpl;
    [rewrite H1, Hc|]; apply IH; exact H2.
Qed.

Lemma lstrip_chars (f : Ascii.ascii -> bool) (s : string) :
  forall_chars f s = true -> forall_chars f (lstrip s) = true.
Proof.
  induction s as [|c s IH]; simpl; [reflexivity|].
  intros H. destruct (is_ws c); [|exact H].
  apply andb_true_iff in H as [_ H2]. apply IH, H2.
Qed.

Lemma rstrip_chars (f : Ascii.ascii -> bool) (s : string) :
  forall_chars f s = true -> forall_chars f (rstrip s) = true.
Proof.
  induction s as [|c s IH]; simpl; [reflexivity|].
  intros H. apply andb_true_iff in H as [H1 H2].
  destruct (is_ws c && String.eqb (rstrip s) ""); simpl; [reflexivity|].
  rewrite H1, (IH H2). reflexivity.
Qed.

Lemma lstrip_head (s : string) (c : Ascii.ascii) (r : string) :
  lstrip s = String c r -> is_ws c = false.
Proof.
  induction s as [|c0 s IH]; simpl; [discriminate|].
  destruct (is_ws c0) eqn:Hc; [exact IH|]. intros H. injection H as <- _. exact Hc.
Qed.

Lemma rstrip_head (s : string) (c : Ascii.ascii) (r : string) :
  rstrip s = String c r -> exists s', s = String c s'.
Proof.
  destruct s as [|c0 s]; simpl; [discriminate|].
  destruct (is_ws c0 && String.eqb (rstrip s) ""); [discriminate|].
  intros H. injection H as <- _. eauto.
Qed.

Lemma rstrip_last (s a : string) (c : Ascii.ascii) :
  rstrip s = String.append a (String c EmptyString) -> is_ws c = false.
Proof.
  revert a. induction s as [|c0 s IH]; intros a; simpl.
  - destruct a; discriminate.
  - destruct (is_ws c0 && String.eqb (rstrip s) "") eqn:Hc.
    + destruct a; discriminate.
    + destruct a as [|a0 a]; simpl; intros H; injection H as <- H.
      * rewrite H in Hc. simpl in Hc. rewrite andb_true_r in Hc. exact Hc.
      * exact (IH a H).
Qed.

(** X7: every character [clean_text] returns is a word character, a plain
    space or one of the kept punctuation marks (all other blanks become
    spaces, everything else is dropped), and the result neither starts nor
    ends with a blank. *)
Theorem clean_text_shape (text : string) :
  let t := clean_text text in
  forall_chars (fun c => is_word_char c || Nat.eqb (Ascii.nat_of_ascii c) 32
                         || is_kept_punct c) t = true /\
  (forall c r, t = String c r -> is_ws c = false) /\
  (forall a c, t = String.append a (String c EmptyString) -> is_ws c = false).
Proof.
  cbv zeta. unfold clean_text. split; [|split].
  - apply rstrip_chars, lstrip_chars.
    eapply forall_chars_impl; [|apply keep_safe_chars, (collapse_ws_chars false text)].
    intros c. simpl.
    destruct (is_ws c), (Nat.eqb (Ascii.nat_of_ascii c) 32), (is_word_char c),
      (is_kept_punct c); simpl; congruence.
  - intros c r H. destruct (rstrip_head _ _ _ H) as [s' Hs].
    exact (lstrip_head _ _ _ Hs).
  - intros a c H. exact (rstrip_last _ _ _ H).
Qed.

End ScorerExtraFacts.

(* ------------------------------------------------------------------ *)
(** ** The chunks of [_chunk_text] are windows covering every word *)
(* ------------------------------------------------------------------ *)
Module ChunkCoverFacts.
Import Text Chunker ChunkerFacts.

Section Loop.
Variable words : list string.
Variables wpc ov : nat.
Hypothesis Hall : Forall (fun w => has_non_ws w = true) words.
Hypothesis Hwpc : 0 < wpc.
Hypothesis Hov : ov < wpc.

(** Every chunk of the loop joins a window of at most [wpc] words. *)
Lemma chunk_loop_windows (fuel start : nat) (ch : string) :
  In ch (chunk_loop fuel words wpc ov start) ->
  exists a b, a < b /\ b <= length words /\ b - a <= wpc /\
              ch = join (slice words a b).
Proof.
  revert start. induction fuel as [|fuel IH]; intros start; [simpl; tauto|].
  destruct (Nat.lt_ge_cases start (length words)) as [Hs|Hs].
  - rewrite chunk_loop_step by assumption. intros [<-|Hin].
    + exists start, (Nat.min (start + wpc) (length words)). repeat split; lia.
    + exact (IH _ Hin).
  - rewrite chunk_loop_stop by exact Hs. simpl. tauto.
Qed.

(** With enough fuel, every word from [start] on lies in some chunk. *)
Lemma chunk_loop_covers (fuel start : nat) :
  length words <= start + fuel * (wpc - ov) ->
  forall i, start <= i < length words ->
  exists a b, a <= i < b /\ In (join (slice words a b)) (chunk_loop fuel words wpc ov start).
Proof.
  revert start. induction fuel as [|fuel IH]; intros start Hf i Hi; [lia|].
  rewrite chunk_loop_step by (assumption || lia).
  destruct (Nat.lt_ge_cases i (Nat.min (start + wpc) (length words))) as [Hl|Hl].
  - exists start, (Nat.min (start + wpc) (length words)). split; [lia|left; reflexivity].
  - assert (Hlt : (Nat.min (start + wpc) (length words) <? length words) = true)
      by (apply Nat.ltb_lt; lia).
    rewrite Hlt.
    destruct (IH (Nat.min (start + wpc) (length words) - ov)) with (i := i)
      as [a [b [Hab Hin]]].
    + rewrite Nat.mul_succ_l in Hf. lia.
    + lia.
    + exists a, b. split; [exact Hab|right; exact Hin].
Qed.
End Loop.

(** X8: [_chunk_text] falls back to the first 2000 characters only for a
    text without words.  Otherwise every chunk is the space-joined window
    [words[a:b]] of 1 to 337 consecutive words, and every word of the text
    lies in at least one chunk. *)
Theorem chunk_text_windows (text : string) :
  let words := py_split text in
  (words = [] -> chunk_text text = [String.substring 0 2000 text]) /\
  (words <> [] ->
     (forall ch, In ch (chunk_text text) ->
        exists a b, a < b /\ b <= length words /\ b - a <= 337 /\
                    ch = join (slice words a b)) /\
     (forall i, i < length words ->
        exists a b, a <= i < b /\ In (join (slice words a b)) (chunk_text text))).
Proof.
  cbv zeta. pose proof (py_split_words text) as Hall.
  unfold chunk_text, chunk_text_max.
  assert (W : words_per_chunk 450 = 337) by reflexivity.
  assert (O : overlap 450 = 33) by reflexivity.
  rewrite W, O.
  remember (py_split text) as words eqn:Hw. clear Hw.
  split.
  - intros ->. reflexivity.
  - intros Hne.
    assert (Hcov := chunk_loop_covers words 337 33 Hall ltac:(lia) ltac:(lia)
                      (S (length words)) 0 ltac:(lia)).
    assert (Hnil : chunk_loop (S (length words)) words 337 33 0 <> []).
    { destruct words as [|w ws]; [congruence|].
      destruct (Hcov 0 ltac:(simpl; lia)) as [a [b [_ Hin]]].
      intros E. rewrite E in Hin. exact Hin. }
    destruct (chunk_loop (S (length words)) words 337 33 0) as [|c cs] eqn:E;
      [congruence|].
    rewrite <- E. split.
    + intros ch Hin. eapply (chunk_loop_windows words 337 33); [exact Hall|lia|lia|exact Hin].
    + intros i Hi. rewrite E. apply Hcov. lia.
Qed.

End ChunkCoverFacts.

(* ------------------------------------------------------------------ *)
(** ** What [get_transcript_urls] returns *)
(* ------------------------------------------------------------------ *)
Module FetcherInvFacts.
Import Text Fetcher.

Lemma substring_length (s : string) (n m : nat) :
  n + m <= String.length s -> String.length (String.substring n m s) = m.
Proof.
  revert n m. induction s as [|c s IH]; intros n m H.
  - simpl in H. assert (n = 0) as -> by lia. assert (m = 0) as -> by lia. reflexivity.
  - destruct n as [|n]; destruct m as [|m]; simpl in *; try reflexivity.
    + f_equal. apply IH. lia.
    + apply IH. lia.
    + apply IH. lia.
Qed.

Lemma months_nth (k : nat) : k < 12 -> str_mem (nth k months "Unknown") months = true.
Proof.
  intros Hk. unfold str_mem. apply existsb_exists.
  exists (nth k months "Unknown"). split; [apply nth_In; exact Hk|apply String.eqb_refl].
Qed.

Lemma month_of_num (mn : nat) :
  let m := if (1 <=? mn) && (mn <=? 12) then nth (mn - 1) months "Unknown"
           else "Unknown" in
  str_mem m months = true \/ m = "Unknown".
Proof.
  cbv zeta. destruct ((1 <=? mn) && (mn <=? 12)) eqn:H; [|right; reflexivity].
  left. apply months_nth. apply andb_true_iff in H as [H1 H2].
  apply Nat.leb_le in H1, H2. lia.
Qed.

Definition good_date (d : DateInfo) : Prop :=
  (str_mem (di_month d) months = true \/ di_month d = "Unknown") /\
  String.length (di_year d) = 4.

Lemma date_from_texts_good (ts : list string) (d : DateInfo) :
  date_from_texts ts = Some d -> good_date d.
Proof.
  induction ts as [|t ts IH]; simpl; [discriminate|].
  destruct (match_month_year t) as [d'|] eqn:Hm; [|exact IH].
  intros [= <-]. unfold match_month_year in Hm.
  destruct (str_mem _ months && _ && _ && _) eqn:Hc; [|discriminate].
  injection Hm as <-. apply andb_true_iff in Hc as [Hc _].
  apply andb_true_iff in Hc as [Hc Hl]. apply andb_true_iff in Hc as [Hc _].
  split; [left; exact Hc|]. apply Nat.eqb_eq. exact Hl.
Qed.

Lemma search_date_good (s y mm : string) :
  search_date s = Some (y, mm) -> String.length y = 4.
Proof.
  induction s as [|c s IH]; simpl.
  - unfold date_at. simpl. discriminate.
  - destruct (date_at (String c s)) eqn:Hd.
    + intros [= <- _].
      change (String c (String.substring 0 3 s)) with (String.substring 0 4 (String c s)).
      apply substring_length.
      unfold date_at in Hd. apply andb_true_iff in Hd as [Hd _].
      repeat (apply andb_true_iff in Hd as [Hd _]). apply Nat.leb_le in Hd. lia.
    + exact IH.
Qed.

Lemma extract_date_from_url_good (u : string) (d : DateInfo) :
  extract_date_from_url u = Some d -> good_date d.
Proof.
  unfold extract_date_from_url.
  destruct (search_date u) as [[y mm]|] eqn:Hs; [|discriminate].
  intros [= <-]. split; [|exact (search_date_good _ _ _ Hs)]. cbn [di_month].
  exact (month_of_num _).
Qed.

Lemma filter_links_refs (sy ey : nat) (links : list Link) : forall seen r,
  In r (filter_links sy ey seen links) ->
  contains "bseindia.com" (url r) = true /\
  quarter r = month r ++ "_" ++ year r /\
  (str_mem (month r) months = true \/ month r = "Unknown") /\
  String.length (year r) = 4 /\
  exists y, parse_int (year r) = Some y /\ sy <= y <= ey.
Proof.
  induction links as [|l ls IH]; intros seen r Hin; [destruct Hin|].
  cbn [filter_links] in Hin. cbv zeta in Hin.
  destruct (_ || _ || _); [exact (IH _ _ Hin)|].
  destruct (negb _); [exact (IH _ _ Hin)|].
  destruct (match extract_date_from_context l with Some d => Some d
            | None => extract_date_from_url (href l) end) as [d|] eqn:Hd;
    [|exact (IH _ _ Hin)].
  assert (Hg : good_date d).
  { destruct (extract_date_from_context l) as [d'|] eqn:Hc.
    - injection Hd as <-. exact (date_from_texts_good _ _ Hc).
    - exact (extract_date_from_url_good _ _ Hd). }
  destruct (parse_int (di_year d)) as [y|] eqn:Hy; [|exact (IH _ _ Hin)].
  destruct (negb ((sy <=? y) && (y <=? ey))) eqn:Hr; [exact (IH _ _ Hin)|].
  destruct (negb (contains "bseindia.com" (urljoin base_url (href l)))) eqn:Hb;
    [exact (IH _ _ Hin)|].
  destruct (negb (str_mem _ seen)); [|exact (IH _ _ Hin)].
  destruct Hin as [<-|Hin]; [|exact (IH _ _ Hin)].
  cbn [url month year quarter]. destruct Hg as [Hm Hl].
  apply negb_false_iff in Hb, Hr. apply andb_true_iff in Hr as [H1 H2].
  apply Nat.leb_le in H1, H2.
  repeat split; try assumption. exists y. split; [exact Hy|lia].
Qed.

(** X9: every reference [get_transcript_urls] returns has a resolved URL
    containing [bseindia.com], a month among [Jan] .. [Dec] or
    ["Unknown"], a four-character year that [int()] reads as a year of
    2015..2026, and the quarter label [month_year]. *)
Theorem get_transcript_urls_refs (links : list Link) (r : DocRef) :
  In r (get_transcript_urls links) ->
  contains "bseindia.com" (url r) = true /\
  quarter r = month r ++ "_" ++ year r /\
  (str_mem (month r) months = true \/ month r = "Unknown") /\
  String.length (year r) = 4 /\
  exists y, parse_int (year r) = Some y /\ 2015 <= y <= 2026.
Proof. apply filter_links_refs. Qed.

Lemma get_transcript_urls_refs_witness :
  let r := {| url := "https://www.bseindia.com/2023-11-05"; month := "Nov";
              year := "2023"; quarter := "Nov_2023" |} in
  In r (get_transcript_urls
          [ {| href := "https://www.bseindia.com/2023-11-05"; link_text := "Transcript";
               previous_texts := [] |} ]) /\
  contains "bseindia.com" (url r) = true /\
  quarter r = month r ++ "_" ++ year r /\
  (str_mem (month r) months = true \/ month r = "Unknown") /\
  String.length (year r) = 4 /\
  exists y, parse_int (year r) = Some y /\ 2015 <= y <= 2026.
Proof.
  cbv zeta. assert (H : In {| url := "https://www.bseindia.com/2023-11-05"; month := "Nov";
              year := "2023"; quarter := "Nov_2023" |} (get_transcript_urls
          [ {| href := "https://www.bseindia.com/2023-11-05"; link_text := "Transcript";
               previous_texts := [] |} ])) by (vm_compute; left; reflexivity).
  split; [exact H|]. exact (get_transcript_urls_refs _ _ H).
Defined.

End FetcherInvFacts.

(* ------------------------------------------------------------------ *)
(** ** The sheet written by [save_results] *)
(* ------------------------------------------------------------------ *)
Module SaveOrderFacts.
Import Text Scorer Engine.

Lemma cell_compare_antisym (a b : Cell) : cell_compare b a = CompOpp (cell_compare a b).
Proof.
  destruct a as [x|x], b as [y|y]; simpl; try reflexivity.
  - apply String.compare_antisym.
  - apply Z.compare_antisym.
Qed.

(** The sort key order of [save_results] compares any two rows. *)
Global Instance row_R_total : Total row_R.
Proof.
  intros a b. unfold row_R, row_le.
  rewrite (cell_compare_antisym (r_company a) (r_company b)).
  destruct (cell_compare (r_company a) (r_company b)); cbn [CompOpp];
    [|left; reflexivity|right; reflexivity].
  rewrite (cell_compare_antisym (r_year a) (r_year b)).
  destruct (cell_compare (r_year a) (r_year b)); cbn [CompOpp];
    [|right; reflexivity|left; reflexivity].
  destruct (month_num (r_month a)) as [x|], (month_num (r_month b)) as [y|];
    try (left; reflexivity); try (right; reflexivity).
  destruct (Nat.leb_spec y x); [left; reflexivity|].
  right. apply Nat.leb_le. lia.
Qed.

(** X10: with an empty batch [save_results] leaves the sheet as it is.
    Otherwise the sheet it writes is sorted by company (ascending), year
    and month (both descending, unknown months last), numbers ranking
    before strings in a column that mixes them; it holds exactly the
    stored rows, as [_load_existing_data] reads them back, whose
    (company, year, month) key equals no key of the batch, plus the
    batch's rows; and every row carries the category label of its
    composite score. *)
Theorem save_results_sheet (existing new_results : list Row) :
  (new_results = [] -> save_results existing new_results = existing) /\
  (new_results <> [] ->
     let sheet := save_results existing new_results in
     Sorted row_R sheet /\
     Permutation sheet
       (map set_category
          (List.filter (fun r => negb (key_in (key r) new_results))
             (load_existing_data existing)
           ++ new_results)%list) /\
     (forall r, In r sheet -> r_category r = sentiment_category (r_overall r))).
Proof.
  split; [intros ->; reflexivity|].
  intros Hne. cbv zeta. unfold save_results.
  destruct new_results as [|n ns] eqn:En; [congruence|]. rewrite <- En.
  assert (Hp : Permutation
     (merge_sort row_R (map set_category
        (match load_existing_data existing with
         | [] => new_results
         | _ => (List.filter (fun r => negb (key_in (key r) new_results))
                   (load_existing_data existing) ++ new_results)%list
         end)))
     (map set_category
        (List.filter (fun r => negb (key_in (key r) new_results))
           (load_existing_data existing) ++ new_results)%list)).
  { rewrite merge_sort_Permutation. destruct (load_existing_data existing); reflexivity. }
  split; [apply Sorted_merge_sort, _|]. split; [exact Hp|].
  intros r Hin. eapply Permutation_in in Hin; [|exact Hp].
  apply in_map_iff in Hin as (r0 & <- & _). reflexivity.
Qed.

End SaveOrderFacts.

(* ------------------------------------------------------------------ *)
(** ** Dates read from file names and the local folder walk *)
(* ------------------------------------------------------------------ *)
Module LocalFilesFacts.
Import Text Scorer Fetcher LocalFiles FetcherInvFacts.

Lemma find_full_index (ms : list string) (i : nat) (fn m : string) :
  find_full ms i fn = Some m ->
  exists j, i <= j < i + length ms /\ m = full_month_map_at j.
Proof.
  revert i. induction ms as [|m0 ms IH]; intros i; simpl; [discriminate|].
  destruct (contains m0 fn).
  - intros [= <-]. exists i. split; [lia|reflexivity].
  - intros H. destruct (IH (S i) H) as (j & Hj & ->). exists j. split; [lia|reflexivity].
Qed.

Lemma full_month_map_good (j : nat) : j < 12 -> str_mem (full_month_map_at j) months = true.
Proof.
  intros Hj. do 12 (destruct j as [|j]; [reflexivity|]). lia.
Qed.

Lemma find_short_member (ms : list string) (fn m : string) :
  find_short ms fn = Some m -> exists m0, In m0 ms /\ m = month_map m0.
Proof.
  induction ms as [|m0 ms IH]; simpl; [discriminate|].
  destruct (contains m0 fn).
  - intros [= <-]. exists m0. split; [left; reflexivity|reflexivity].
  - intros H. destruct (IH H) as (m1 & Hin & ->). exists m1. split; [right; exact Hin|reflexivity].
Qed.

Lemma month_map_good (m0 : string) : In m0 months_lc -> str_mem (month_map m0) months = true.
Proof.
  intros Hin. repeat (destruct Hin as [<-|Hin]; [reflexivity|]). destruct Hin.
Qed.

Lemma numbered_month_good (k : nat) :
  1 <= k <= 12 ->
  str_mem (String.substring 0 3 (capitalize (nth (k - 1) months_lc ""))) months = true.
Proof.
  intros Hk. destruct k as [|k]; [lia|]. simpl (S k - 1). rewrite Nat.sub_0_r.
  do 12 (destruct k as [|k]; [reflexivity|]). lia.
Qed.

Lemma quarter_months_good (q : nat) :
  str_mem (quarter_months q) months = true \/ quarter_months q = "Unknown".
Proof.
  destruct q as [|[|[|[|[|q]]]]]; cbn [quarter_months];
    solve [right; reflexivity | left; reflexivity].
Qed.

Lemma year_at_good (s : string) :
  year_at s = true ->
  String.length (String.substring 0 4 s) = 4 /\
  exists n, parse_int (String.substring 0 4 s) = Some n /\ 2015 <= n <= 2026.
Proof.
  destruct s as [|a [|b [|c [|d r]]]]; try discriminate.
  unfold year_at. intros H.
  apply andb_true_iff in H as [H Hcd]. apply andb_true_iff in H as [Ha Hb].
  apply Ascii.eqb_eq in Ha, Hb. subst a b.
  assert (Hsub : String.substring 0 4 (String "2" (String "0" (String c (String d r))))
                 = String "2" (String "0" (String c (String d "")))) by (destruct r; reflexivity).
  rewrite Hsub. split; [reflexivity|].
  apply orb_true_iff in Hcd as [Hcd|Hcd]; apply andb_true_iff in Hcd as [Hc Hd];
    apply Ascii.eqb_eq in Hc; subst c; unfold code_in in Hd;
    apply andb_true_iff in Hd as [Hd1 Hd2]; apply Nat.leb_le in Hd1, Hd2;
    assert (Hdig : is_digit d = true)
      by (unfold is_digit; apply andb_true_iff; split; apply Nat.leb_le; lia);
    unfold parse_int; cbn [String.substring all_digits]; rewrite Hdig;
    cbn [String.eqb negb andb digits_value_aux];
    eexists; (split; [reflexivity|]); simpl; lia.
Qed.

Lemma search_year_good (s y : string) :
  search_year s = Some y ->
  String.length y = 4 /\ exists n, parse_int y = Some n /\ 2015 <= n <= 2026.
Proof.
  induction s as [|c s IH].
  - discriminate.
  - change (search_year (String c s)) with
      (if year_at (String c s) then Some (String.substring 0 4 (String c s))
       else search_year s).
    destruct (year_at (String c s)) eqn:Hy; [|exact IH].
    intros [= <-]. exact (year_at_good _ Hy).
Qed.

(** The month and year [_extract_date_from_filename] can return. *)
Lemma filename_date_good (filename : string) :
  let d := extract_date_from_filename filename in
  (str_mem (di_month d) months = true \/ di_month d = "Unknown") /\
  (di_year d = "Unknown" \/
   String.length (di_year d) = 4 /\
   exists n, parse_int (di_year d) = Some n /\ 2015 <= n <= 2026).
Proof.
  cbv zeta. unfold extract_date_from_filename. cbv zeta. cbn [di_month di_year].
  split.
  - destruct (find_full full_months 0 (lower filename)) as [m|] eqn:E1.
    + left. destruct (find_full_index _ _ _ _ E1) as (j & Hj & ->).
      apply full_month_map_good. simpl in Hj. lia.
    + destruct (find_short months_lc (lower filename)) as [m|] eqn:E2.
      * left. destruct (find_short_member _ _ _ E2) as (m0 & Hin & ->).
        apply month_map_good, Hin.
      * destruct (search_year (lower filename)) as [y|];
          [destruct (search_fn_date (lower filename)) as [mm|]|].
        -- set (k := match parse_int mm with Some n => n | None => 0 end).
           destruct ((1 <=? k) && (k <=? 12)) eqn:Ek.
           ++ left. apply numbered_month_good.
              apply andb_true_iff in Ek as [E3 E4]. apply Nat.leb_le in E3, E4. lia.
           ++ destruct (search_q (lower filename)) as [q|];
                [apply quarter_months_good|right; reflexivity].
        -- destruct (search_q (lower filename)) as [q|];
             [apply quarter_months_good|right; reflexivity].
        -- destruct (search_q (lower filename)) as [q|];
             [apply quarter_months_good|right; reflexivity].
  - destruct (search_year (lower filename)) as [y|] eqn:Ey; [|left; reflexivity].
    right. exact (search_year_good _ _ Ey).
Qed.

Lemma digit_char (n : nat) : is_digit (Ascii.ascii_of_nat (48 + n mod 10)) = true.
Proof.
  unfold is_digit. pose proof (Nat.mod_upper_bound n 10 ltac:(lia)).
  rewrite Ascii.nat_ascii_embedding by lia.
  apply andb_true_iff. split; apply Nat.leb_le; lia.
Qed.

Lemma digits_of_head (fuel n : nat) (acc : string) :
  (exists c r, acc = String c r /\ is_digit c = true) ->
  exists c r, digits_of fuel n acc = String c r /\ is_digit c = true.
Proof.
  revert n acc. induction fuel as [|f IH]; intros n acc Hacc; [exact Hacc|].
  cbn [digits_of]. destruct (n <? 10).
  - eexists _, _. split; [reflexivity|apply digit_char].
  - apply IH. eexists _, _. split; [reflexivity|apply digit_char].
Qed.

(** [str(n)] is never the text ["Unknown"]. *)
Lemma str_of_Z_known (z : Z) : str_of_Z z <> "Unknown".
Proof.
  unfold str_of_Z. destruct (z <? 0)%Z; [discriminate|].
  assert (H : exists c r, digits_of (S (Z.to_nat z)) (Z.to_nat z) "" = String c r
                          /\ is_digit c = true).
  { cbn [digits_of]. destruct (Z.to_nat z <? 10).
    - eexists _, _. split; [reflexivity|apply digit_char].
    - apply digits_of_head. eexists _, _. split; [reflexivity|apply digit_char]. }
  destruct H as (c & r & E & Hc). rewrite E. intros [= Ec _]. rewrite Ec in Hc. vm_compute in Hc. discriminate.
Qed.

(** X11: [_extract_date_from_filename] returns a month among [Jan] ..
    [Dec] or ["Unknown"], and a year that is ["Unknown"] or a four-digit
    year of 2015..2026. *)
Theorem extract_date_from_filename_shape (filename : string) :
  let d := extract_date_from_filename filename in
  (str_mem (di_month d) months = true \/ di_month d = "Unknown") /\
  (di_year d = "Unknown" \/
   String.length (di_year d) = 4 /\
   exists n, parse_int (di_year d) = Some n /\ 2015 <= n <= 2026).
Proof. apply filename_date_good. Qed.

(** X12: every transcript [get_local_transcripts] lists is a PDF of the
    [Transcript] folder of a year directory whose name [int()] reads as a
    year of [start_year..end_year].  Its month is the one read from the
    file name; its year is the one read from the file name, or the
    folder's year when the file name has none (so it is never
    ["Unknown"], and it may lie outside [start_year..end_year]); and its
    quarter is ["month year"]. *)
Theorem get_local_transcripts_entries (company_folder : option (list YearEntry))
    (start_year end_year : Z) (t : LocalTranscript) :
  In t (get_local_transcripts company_folder start_year end_year) ->
  let d := extract_date_from_filename (snd (lt_path t)) in
  exists entries yf pdfs year,
    company_folder = Some entries /\ In yf entries /\ ye_is_dir yf = true /\
    ye_pdfs yf = Some pdfs /\ In (snd (lt_path t)) pdfs /\
    fst (lt_path t) = ye_name yf /\
    py_int (ye_name yf) = Some year /\ (start_year <= year <= end_year)%Z /\
    lt_month t = di_month d /\
    (str_mem (lt_month t) months = true \/ lt_month t = "Unknown") /\
    ((di_year d <> "Unknown" /\ lt_year t = di_year d) \/
     (di_year d = "Unknown" /\ lt_year t = str_of_Z year)) /\
    lt_year t <> "Unknown" /\
    lt_quarter t = lt_month t ++ " " ++ lt_year t.
Proof.
  unfold get_local_transcripts. destruct company_folder as [entries|]; [|intros []].
  intros H. apply in_flat_map in H as (yf & Hyf & Hin).
  destruct (ye_is_dir yf) eqn:Hdir; [|destruct Hin]. cbn [negb] in Hin.
  destruct (py_int (ye_name yf)) as [year|] eqn:Hy; [|destruct Hin].
  destruct ((year <? start_year)%Z || (end_year <? year)%Z) eqn:Hr; [destruct Hin|].
  destruct (ye_pdfs yf) as [pdfs|] eqn:Hp; [|destruct Hin].
  apply in_map_iff in Hin as (f & <- & Hf). cbv zeta. cbn [lt_path lt_month lt_year lt_quarter fst snd].
  apply orb_false_iff in Hr as [Hr1 Hr2]. apply Z.ltb_ge in Hr1, Hr2.
  destruct (filename_date_good f) as [Hm _].
  exists entries, yf, pdfs, year. do 9 (split; [first [reflexivity | assumption | lia]|]).
  split; [exact Hm|].
  destruct (String.eqb_spec (di_year (extract_date_from_filename f)) "Unknown") as [E|E].
  - split; [right; split; [exact E|reflexivity]|]. split; [apply str_of_Z_known|reflexivity].
  - split; [left; split; [exact E|reflexivity]|]. split; [exact E|reflexivity].
Qed.

Lemma get_local_transcripts_entries_witness :
  let folder := Some [ {| ye_name := "2024"; ye_is_dir := true;
                          ye_pdfs := Some ["RELIANCE_Q3_FY24.pdf"] |} ] in
  let t := {| lt_path := ("2024", "RELIANCE_Q3_FY24.pdf"); lt_month := "Dec";
              lt_year := "2024"; lt_quarter := "Dec 2024" |} in
  In t (get_local_transcripts folder 2015 2026) /\
  let d := extract_date_from_filename (snd (lt_path t)) in
  exists entries yf pdfs year,
    folder = Some entries /\ In yf entries /\ ye_is_dir yf = true /\
    ye_pdfs yf = Some pdfs /\ In (snd (lt_path t)) pdfs /\
    fst (lt_path t) = ye_name yf /\
    py_int (ye_name yf) = Some year /\ (2015 <= year <= 2026)%Z /\
    lt_month t = di_month d /\
    (str_mem (lt_month t) months = true \/ lt_month t = "Unknown") /\
    ((di_year d <> "Unknown" /\ lt_year t = di_year d) \/
     (di_year d = "Unknown" /\ lt_year t = str_of_Z year)) /\
    lt_year t <> "Unknown" /\
    lt_quarter t = lt_month t ++ " " ++ lt_year t.
Proof.
  cbv zeta. split; [vm_compute; left; reflexivity|].
  apply get_local_transcripts_entries. vm_compute. left. reflexivity.
Defined.

End LocalFilesFacts.

(* ------------------------------------------------------------------ *)
(** ** Dashboard helpers: pages, histogram buckets, market mood *)
(* ------------------------------------------------------------------ *)
Module DashboardFacts.
Import Dashboard.

(** the [page_data] part of [get_paginated_stocks] *)
Definition page_rows {A} (rows : list A) (page per_page : Z) : list A :=
  match get_paginated_stocks (Some rows) page per_page with
  | Some (pg, _, _) => pg
  | None => []
  end.

Lemma take_min_length {A} (n : nat) (l : list A) :
  take (Nat.min n (length l)) l = take n l.
Proof.
  destruct (Nat.le_ge_cases n (length l)) as [H|H].
  - rewrite Nat.min_l by exact H. reflexivity.
  - rewrite Nat.min_r by exact H. rewrite !take_ge by lia. reflexivity.
Qed.

(** Page [page >= 1] holds the [per_page] rows from [(page-1)*per_page] on. *)
Lemma page_rows_pos {A} (rows : list A) (page per_page : Z) :
  (0 < per_page)%Z -> (1 <= page)%Z ->
  page_rows rows page per_page =
    take (Z.to_nat per_page) (drop (Z.to_nat ((page - 1) * per_page)) rows).
Proof.
  intros Hpp Hp. unfold page_rows, get_paginated_stocks, py_slice, slice_bound.
  destruct (Z.eqb_spec per_page 0) as [E|_]; [lia|].
  set (s := ((page - 1) * per_page)%Z).
  assert (Hs : (0 <= s)%Z) by (apply Z.mul_nonneg_nonneg; lia).
  destruct (Z.ltb_spec s 0) as [H|_]; [lia|].
  destruct (Z.ltb_spec (s + per_page) 0) as [H|_]; [lia|].
  set (n := length rows).
  destruct (Z.le_gt_cases s (Z.of_nat n)) as [Hle|Hgt].
  - rewrite (Z.min_l s (Z.of_nat n)) by exact Hle.
    replace (Z.to_nat (Z.min (s + per_page) (Z.of_nat n) - s))
      with (Nat.min (Z.to_nat per_page) (length (drop (Z.to_nat s) rows)))
      by (rewrite length_drop; fold n; lia).
    apply take_min_length.
  - rewrite Z.min_r by lia. rewrite Z.min_r by lia. rewrite Z.sub_diag.
    rewrite (drop_ge rows (Z.to_nat s)) by (fold n; lia).
    rewrite take_nil. reflexivity.
Qed.

Lemma concat_pages {A} (rows : list A) (P K : nat) :
  concat (map (fun k => take P (drop (k * P) rows)) (seq 0 K)) = take (K * P) rows.
Proof.
  induction K as [|K IH]; [reflexivity|].
  rewrite seq_S, map_app, concat_app, IH. cbn [map concat]. rewrite app_nil_r.
  rewrite take_take_drop. f_equal. lia.
Qed.

(** X13: with a positive [per_page], [get_paginated_stocks] reports the
    row count and [total_pages = ceil(total / per_page)]; the pages
    1..total_pages, put end to end, give back the sorted rows; every page
    holds at most [per_page] rows; pages 1..total_pages are non-empty and
    pages after the last are empty. *)
Theorem get_paginated_stocks_partition {A} (rows : list A) (per_page : Z)
    (Hpp : (0 < per_page)%Z) :
  let tp := ((Z.of_nat (length rows) + per_page - 1) / per_page)%Z in
  (forall page, exists pg,
     get_paginated_stocks (Some rows) page per_page = Some (pg, length rows, tp)) /\
  concat (map (fun k => page_rows rows (Z.of_nat k + 1) per_page) (seq 0 (Z.to_nat tp)))
    = rows /\
  (forall page, length (page_rows rows page per_page) <= Z.to_nat per_page) /\
  (forall page, (1 <= page <= tp)%Z -> page_rows rows page per_page <> []) /\
  (forall page, (tp < page)%Z -> page_rows rows page per_page = []).
Proof.
  cbv zeta. set (n := length rows).
  set (tp := ((Z.of_nat n + per_page - 1) / per_page)%Z).
  pose proof (Z.div_mod (Z.of_nat n + per_page - 1) per_page ltac:(lia)) as Hdm.
  pose proof (Z.mod_pos_bound (Z.of_nat n + per_page - 1) per_page Hpp) as Hmb.
  fold tp in Hdm.
  set (r := ((Z.of_nat n + per_page - 1) mod per_page)%Z) in *.
  assert (Htp0 : (0 <= tp)%Z) by (apply Z.div_pos; lia).
  assert (Hup : (Z.of_nat n <= per_page * tp)%Z) by lia.
  assert (Hlo : (per_page * (tp - 1) < Z.of_nat n)%Z) by lia.
  split; [|split; [|split; [|split]]].
  - intros page. unfold get_paginated_stocks.
    destruct (Z.eqb_spec per_page 0); [lia|]. eexists. reflexivity.
  - clearbody tp r. clear Hdm Hmb.
    rewrite (map_ext_in _ (fun k => take (Z.to_nat per_page)
                                      (drop (k * Z.to_nat per_page) rows))).
    + rewrite concat_pages. apply take_ge. fold n. nia.
    + intros k _. rewrite page_rows_pos by lia. f_equal. f_equal. nia.
  - intros page. unfold page_rows, get_paginated_stocks, py_slice, slice_bound.
    destruct (Z.eqb_spec per_page 0); [lia|].
    rewrite length_take. fold n.
    destruct (Z.ltb_spec ((page - 1) * per_page) 0);
      destruct (Z.ltb_spec ((page - 1) * per_page + per_page) 0); lia.
  - clearbody tp r. clear Hdm Hmb. intros page Hp. rewrite page_rows_pos by lia.
    intros E. apply (f_equal length) in E. rewrite length_take, length_drop in E.
    cbn [length] in E. fold n in E.
    assert (((page - 1) * per_page <= (tp - 1) * per_page)%Z) by nia.
    assert (Hs : Z.of_nat (Z.to_nat ((page - 1) * per_page)) = ((page - 1) * per_page)%Z)
      by (apply Z2Nat.id; nia).
    assert (HP : 0 < Z.to_nat per_page) by lia.
    set (m := Z.to_nat ((page - 1) * per_page)) in *. clearbody m n.
    assert (n <= m) by lia. nia.
  - clearbody tp r. clear Hdm Hmb. intros page Hp. rewrite page_rows_pos by lia.
    rewrite drop_ge; [apply take_nil|]. fold n.
    assert ((tp * per_page <= (page - 1) * per_page)%Z) by nia. lia.
Qed.

Lemma get_paginated_stocks_partition_witness :
  (0 < 3)%Z /\
  let rows := [1; 2; 3; 4; 5; 6; 7] in
  let tp := ((Z.of_nat (length rows) + 3 - 1) / 3)%Z in
  (forall page, exists pg,
     get_paginated_stocks (Some rows) page 3 = Some (pg, length rows, tp)) /\
  concat (map (fun k => page_rows rows (Z.of_nat k + 1) 3) (seq 0 (Z.to_nat tp)))
    = rows /\
  (forall page, length (page_rows rows page 3) <= Z.to_nat 3) /\
  (forall page, (1 <= page <= tp)%Z -> page_rows rows page 3 <> []) /\
  (forall page, (tp < page)%Z -> page_rows rows page 3 = []).
Proof. split; [lia|]. apply get_paginated_stocks_partition. lia. Defined.

(** X14: [get_paginated_stocks] without data returns [([], 0, 0)]; with
    data, [per_page = 0] raises [ZeroDivisionError], and for a positive
    [per_page] page 0 is empty; a negative [per_page] makes page 1 the
    slice [rows[0:per_page]], all rows but the last [-per_page]. *)
Theorem get_paginated_stocks_edges {A} (rows : list A) (page per_page : Z) :
  get_paginated_stocks (@None (list A)) page per_page = Some ([], 0, 0%Z) /\
  get_paginated_stocks (Some rows) page 0 = None /\
  ((0 < per_page)%Z -> page_rows rows 0 per_page = []) /\
  ((per_page < 0)%Z ->
     page_rows rows 1 per_page = take (length rows - Z.to_nat (- per_page)) rows).
Proof.
  split; [reflexivity|]. split; [reflexivity|]. split.
  - intros Hpp. unfold page_rows, get_paginated_stocks, py_slice, slice_bound.
    destruct (Z.eqb_spec per_page 0); [lia|].
    replace ((0 - 1) * per_page + per_page)%Z with 0%Z by lia.
    destruct (Z.ltb_spec ((0 - 1) * per_page) 0); [|lia].
    destruct (Z.ltb_spec 0 0); [lia|].
    replace (Z.to_nat (Z.min 0 (Z.of_nat (length rows))
                       - Z.max 0 ((0 - 1) * per_page + Z.of_nat (length rows))))
      with 0 by lia.
    apply take_0.
  - intros Hpp. unfold page_rows, get_paginated_stocks, py_slice, slice_bound.
    destruct (Z.eqb_spec per_page 0); [lia|].
    replace ((1 - 1) * per_page)%Z with 0%Z by lia.
    replace (0 + per_page)%Z with per_page by lia.
    destruct (Z.ltb_spec 0 0); [lia|]. destruct (Z.ltb_spec per_page 0); [|lia].
    replace (Z.to_nat (Z.max 0 (per_page + Z.of_nat (length rows))
                       - Z.min 0 (Z.of_nat (length rows))))
      with (length rows - Z.to_nat (- per_page)) by lia.
    replace (Z.to_nat (Z.min 0 (Z.of_nat (length rows)))) with 0 by lia.
    reflexivity.
Qed.

Local Open Scope Q_scope.

Lemma Qle_bool_false (a b : Q) : Qle_bool a b = false -> b < a.
Proof.
  intros H. apply Qnot_le_lt. intros H'. apply Qle_bool_iff in H'. congruence.
Qed.

Lemma bucket_split (a b c x : Q) :
  a <= b -> b <= c ->
  ((if Qle_bool a x && negb (Qle_bool b x) then 1 else 0)
   + (if Qle_bool b x && negb (Qle_bool c x) then 1 else 0))%nat =
  (if Qle_bool a x && negb (Qle_bool c x) then 1 else 0)%nat.
Proof.
  intros Hab Hbc.
  destruct (Qle_bool a x) eqn:Ea, (Qle_bool b x) eqn:Eb, (Qle_bool c x) eqn:Ec;
    cbn [negb andb]; try reflexivity;
    repeat match goal with
           | H : Qle_bool _ _ = true |- _ => apply Qle_bool_iff in H
           | H : Qle_bool _ _ = false |- _ => apply Qle_bool_false in H
           end; exfalso; lra.
Qed.

Lemma bucket_count_cons (x : Q) (xs : list Q) (low high : Q) :
  bucket_count (x :: xs) low high =
  ((if Qle_bool low x && negb (Qle_bool high x) then 1 else 0) + bucket_count xs low high)%nat.
Proof. unfold bucket_count. simpl. destruct (_ && _); reflexivity. Qed.

(** X15: the buckets of [get_sentiment_distribution] count every score of
    [[-1.0, 1.0)] exactly once: their counts add up to the number of such
    scores, and a score of [1.0] (or any score outside the range) is in
    no bucket. *)
Theorem get_sentiment_distribution_total (scores : list Q) :
  list_sum (map (fun '(_, _, c) => c) (get_sentiment_distribution (Some scores))) =
  length (List.filter (fun x => Qle_bool (-1) x && negb (Qle_bool 1 x)) scores).
Proof.
  unfold get_sentiment_distribution, ranges, list_sum. cbn [map fold_right].
  induction scores as [|x xs IH]; [reflexivity|].
  rewrite !bucket_count_cons. cbn [List.filter].
  assert (Hx : ((if Qle_bool (-1) x && negb (Qle_bool (-8#10) x) then 1 else 0)
      + ((if Qle_bool (-8#10) x && negb (Qle_bool (-6#10) x) then 1 else 0)
      + ((if Qle_bool (-6#10) x && negb (Qle_bool (-4#10) x) then 1 else 0)
      + ((if Qle_bool (-4#10) x && negb (Qle_bool (-2#10) x) then 1 else 0)
      + ((if Qle_bool (-2#10) x && negb (Qle_bool 0 x) then 1 else 0)
      + ((if Qle_bool 0 x && negb (Qle_bool (2#10) x) then 1 else 0)
      + ((if Qle_bool (2#10) x && negb (Qle_bool (4#10) x) then 1 else 0)
      + ((if Qle_bool (4#10) x && negb (Qle_bool (6#10) x) then 1 else 0)
      + ((if Qle_bool (6#10) x && negb (Qle_bool (8#10) x) then 1 else 0)
      + ((if Qle_bool (8#10) x && negb (Qle_bool 1 x) then 1 else 0))))))))))
      = (if Qle_bool (-1) x && negb (Qle_bool 1 x) then 1 else 0))%nat).
  { repeat (rewrite bucket_split by lra). reflexivity. }
  destruct (Qle_bool (-1) x && negb (Qle_bool 1 x)); cbn [length]; lia.
Qed.

Ltac mood_cases :=
  repeat match goal with
         | |- context [Qle_bool ?a ?b] => destruct (Qle_bool a b) eqn:?
         end;
  repeat match goal with
         | H : Qle_bool _ _ = true |- _ => apply Qle_bool_iff in H
         | H : Qle_bool _ _ = false |- _ => apply Qle_bool_false in H
         end.

(** X16: [get_market_mood] is monotone: a higher average score never gives
    a more fearful mood on the scale Extreme Fear, Fear, Neutral, Greed,
    Extreme Greed; the fearful moods are red, Neutral amber and the
    greedy ones emerald. *)
Theorem get_market_mood_monotone (x y : Q) :
  x <= y ->
  (mood_rank (fst (get_market_mood x)) <= mood_rank (fst (get_market_mood y)))%nat /\
  snd (get_market_mood x) =
    (if (mood_rank (fst (get_market_mood x)) <? 2)%nat then "red"
     else if (mood_rank (fst (get_market_mood x)) =? 2)%nat then "amber" else "emerald").
Proof.
  intros Hxy. unfold get_market_mood. mood_cases;
    first [exfalso; lra | vm_compute; split; [lia|reflexivity]].
Qed.

Lemma get_market_mood_monotone_witness :
  (-3#10) <= (3#10) /\
  (mood_rank (fst (get_market_mood (-3#10))) <= mood_rank (fst (get_market_mood (3#10))))%nat /\
  snd (get_market_mood (-3#10)) =
    (if (mood_rank (fst (get_market_mood (-3#10))) <? 2)%nat then "red"
     else if (mood_rank (fst (get_market_mood (-3#10))) =? 2)%nat then "amber" else "emerald").
Proof.
  assert (H : (-3#10) <= (3#10)) by lra.
  split; [exact H|]. exact (get_market_mood_monotone _ _ H).
Defined.

End DashboardFacts.

(* ------------------------------------------------------------------ *)
(** ** Queries and the statistics of the state tracker *)
(* ------------------------------------------------------------------ *)
Module TrackerQueryFacts.
Import Text Ledger Tracker LedgerFacts.

(** Python's [a <= b] on strings *)
Definition str_le (a b : string) : Prop := String.compare a b <> Gt.

Lemma ascii_compare_refl (a : Ascii.ascii) : Ascii.compare a a = Eq.
Proof. unfold Ascii.compare. apply N.compare_refl. Qed.

Lemma str_compare_refl (s : string) : String.compare s s = Eq.
Proof. induction s as [|a s IH]; simpl; [reflexivity|]. rewrite ascii_compare_refl. exact IH. Qed.

Lemma str_lt_trans (s1 s2 s3 : string) :
  String.compare s1 s2 = Lt -> String.compare s2 s3 = Lt -> String.compare s1 s3 = Lt.
Proof.
  revert s2 s3. induction s1 as [|a s1 IH]; intros [|b s2] [|c s3]; simpl;
    try discriminate; try reflexivity.
  intros H1 H2. unfold Ascii.compare in *.
  destruct (N.compare_spec (N_of_ascii a) (N_of_ascii b)); try discriminate;
  destruct (N.compare_spec (N_of_ascii b) (N_of_ascii c)); try discriminate;
  destruct (N.compare_spec (N_of_ascii a) (N_of_ascii c)); try lia; eauto.
Qed.

Lemma str_le_refl (s : string) : str_le s s.
Proof. unfold str_le. rewrite str_compare_refl. discriminate. Qed.

Lemma str_le_trans (a b c : string) : str_le a b -> str_le b c -> str_le a c.
Proof.
  unfold str_le. intros H1 H2.
  destruct (String.compare a b) eqn:E1; [apply String.compare_eq_iff in E1; subst; exact H2
    | | contradiction].
  destruct (String.compare b c) eqn:E2; [apply String.compare_eq_iff in E2; subst;
    rewrite E1; discriminate | | contradiction].
  rewrite (str_lt_trans _ _ _ E1 E2). discriminate.
Qed.

Lemma str_ltb_le (a b : string) : String.ltb a b = true -> str_le a b.
Proof. unfold String.ltb, str_le. destruct (String.compare a b); congruence. Qed.

Lemma str_not_ltb_le (a b : string) : String.ltb a b = false -> str_le b a.
Proof.
  unfold String.ltb, str_le. rewrite (String.compare_antisym b a).
  destruct (String.compare a b); simpl; congruence.
Qed.

(** one turn of [max]: the running maximum *)
Definition max_step (acc : option string) (x : string) : option string :=
  match acc with
  | None => Some x
  | Some m => if String.ltb m x then Some x else Some m
  end.

Lemma max_fold_spec (l : list string) (acc : option string) :
  match fold_left max_step l acc with
  | None => acc = None /\ l = []
  | Some m => (acc = Some m \/ In m l) /\ (forall x, In x l -> str_le x m) /\
              (forall a, acc = Some a -> str_le a m)
  end.
Proof.
  revert acc. induction l as [|x l IH]; intros acc; simpl.
  - destruct acc as [m|]; [|auto].
    split; [left; reflexivity|]. split; [tauto|]. intros a [= ->]. apply str_le_refl.
  - specialize (IH (max_step acc x)).
    destruct (fold_left max_step l (max_step acc x)) as [m|] eqn:E.
    + destruct IH as (Hin & Hall & Hacc).
      destruct acc as [a0|]; simpl in Hin, Hacc |- *.
      * destruct (String.ltb a0 x) eqn:Elt.
        -- pose proof (Hacc x eq_refl) as Hx.
           split; [destruct Hin as [[= ->]|Hin]; right; [left|right]; auto|].
           split; [intros y [<-|Hy]; auto|].
           intros a [= <-]. exact (str_le_trans _ _ _ (str_ltb_le _ _ Elt) Hx).
        -- pose proof (Hacc a0 eq_refl) as Ha0.
           split; [destruct Hin as [[= ->]|Hin]; [left|right; right]; auto|].
           split; [|intros a [= <-]; exact Ha0].
           intros y [<-|Hy]; [|auto].
           exact (str_le_trans _ _ _ (str_not_ltb_le _ _ Elt) Ha0).
      * pose proof (Hacc x eq_refl) as Hx.
        split; [destruct Hin as [[= ->]|Hin]; right; [left|right]; auto|].
        split; [intros y [<-|Hy]; auto|]. discriminate.
    + destruct IH as [Hc _]. destruct acc as [a0|]; simpl in Hc;
        [destruct (String.ltb a0 x)|]; discriminate.
Qed.

Lemma py_max_str_spec (xs : list string) (t : string) :
  py_max_str xs = Some t -> In t xs /\ forall x, In x xs -> str_le x t.
Proof.
  intros H. pose proof (max_fold_spec xs None) as Hs.
  change (fold_left max_step xs None) with (py_max_str xs) in Hs. rewrite H in Hs.
  destruct Hs as ([Hc|Hin] & Hall & _); [discriminate|auto].
Qed.

Lemma py_max_str_nonempty (xs : list string) : xs <> [] -> py_max_str xs <> None.
Proof.
  intros Hne H. pose proof (max_fold_spec xs None) as Hs.
  change (fold_left max_step xs None) with (py_max_str xs) in Hs. rewrite H in Hs.
  destruct Hs as [_ Hc]. contradiction.
Qed.

Lemma map_fst_fmap {A B} (l : list (A * B)) : map fst l = l.*1.
Proof. induction l as [|x l IH]; csimpl; [reflexivity|]. rewrite IH. reflexivity. Qed.

Lemma entry_of_company_quarters (S : State) (c q : string) :
  entry_of (processed S) c q = company_quarters S c !! q.
Proof.
  unfold entry_of, company_quarters. destruct (processed S !! upper c); [reflexivity|].
  rewrite lookup_empty. reflexivity.
Qed.

Lemma in_keys {A} (m : gmap string A) (q : string) :
  In q (map fst (map_to_list m)) <-> exists e, m !! q = Some e.
Proof.
  rewrite in_map_iff. split.
  - intros [[k e] [Hk Hin]]. simpl in Hk. subst k. exists e.
    apply elem_of_map_to_list, list_elem_of_In. exact Hin.
  - intros [e He]. exists (q, e). split; [reflexivity|].
    apply list_elem_of_In, elem_of_map_to_list. exact He.
Qed.

(** X17: [get_company_status(c)] names the company in upper case, lists the
    quarters recorded for it, without repetition and in the order of
    [get_processed_quarters(c)], counts them, and reports as
    [last_processed] nothing when there is none and otherwise the latest
    (greatest) timestamp among its records. *)
Theorem get_company_status_spec (S : State) (c : string) :
  let st := get_company_status S c in
  cs_company st = upper c /\
  cs_quarters st = get_processed_quarters S c /\
  cs_quarters_processed st = length (cs_quarters st) /\
  NoDup (cs_quarters st) /\
  (forall q, In q (cs_quarters st) <-> is_processed (processed S) c q = true) /\
  (cs_last_processed st = None <-> cs_quarters st = []) /\
  (forall t, cs_last_processed st = Some t ->
     (exists q e, entry_of (processed S) c q = Some e /\ timestamp e = t) /\
     (forall q e, entry_of (processed S) c q = Some e -> str_le (timestamp e) t)).
Proof.
  cbv zeta. unfold get_company_status, get_processed_quarters; simpl.
  set (m := company_quarters S c).
  split; [reflexivity|]. split; [reflexivity|].
  split; [rewrite length_map, length_map_to_list; reflexivity|].
  split; [rewrite map_fst_fmap; apply NoDup_fst_map_to_list|].
  split.
  { intros q. rewrite in_keys, is_processed_entry, entry_of_company_quarters. fold m.
    destruct (m !! q); split; [eauto|eauto|intros [e He]; discriminate|discriminate]. }
  assert (Hlen : length (map fst (map_to_list m)) = size m)
    by (rewrite length_map, length_map_to_list; reflexivity).
  split.
  { destruct (Nat.eqb_spec (size m) 0) as [H0|H0].
    - split; [intros _|reflexivity]. apply length_zero_iff_nil. lia.
    - split; intros H; [|rewrite H in Hlen; simpl in Hlen; lia].
      exfalso. revert H. apply py_max_str_nonempty.
      intros Hn. apply (f_equal (@length string)) in Hn.
      rewrite length_map, length_map_to_list in Hn. simpl in Hn. lia. }
  intros t Ht. destruct (Nat.eqb (size m) 0); [discriminate|].
  apply py_max_str_spec in Ht as [Hin Hall]. split.
  - apply in_map_iff in Hin as [[q e] [He Hin]]. exists q, e.
    rewrite entry_of_company_quarters. fold m. split; [|exact He].
    apply elem_of_map_to_list, list_elem_of_In. exact Hin.
  - intros q e He. rewrite entry_of_company_quarters in He. fold m in He.
    apply Hall, in_map_iff. exists (q, e). split; [reflexivity|].
    apply list_elem_of_In, elem_of_map_to_list. exact He.
Qed.

Global Instance quarters_ge_trans : Transitive quarters_ge.
Proof. unfold quarters_ge. intros x y z; lia. Qed.

Global Instance quarters_ge_total : Total quarters_ge.
Proof. unfold quarters_ge. intros x y; lia. Qed.

Lemma foldr_size_list_sum (l : list (string * gmap string Entry)) :
  foldr (uncurry (fun _ (qs : gmap string Entry) acc => size qs + acc)) 0 l =
    list_sum (map (fun '(_, q) => size q) l).
Proof. induction l as [|[c qs] l IH]; simpl; [reflexivity|]. rewrite IH. reflexivity. Qed.

Lemma summary_total_quarters (S : State) :
  sm_total_quarters (get_summary S) = total_items (processed S).
Proof.
  unfold get_summary, total_items; simpl. rewrite map_fold_foldr.
  symmetry. apply foldr_size_list_sum.
Qed.

Lemma in_take_drop {A} (n : nat) (x : A) (l : list A) :
  In x l -> In x (take n l) \/ In x (drop n l).
Proof.
  intros H. rewrite <- (take_drop n l) in H. apply in_app_or in H. exact H.
Qed.

Lemma Sorted_take {A} (R : relation A) (n : nat) (l : list A) :
  Sorted R l -> Sorted R (take n l).
Proof.
  revert n. induction l as [|x l IH]; intros n H; [rewrite take_nil; constructor|].
  destruct n as [|n]; simpl; [constructor|].
  apply Sorted_inv in H as [Hl Hx]. constructor; [exact (IH n Hl)|].
  destruct l as [|y l]; [rewrite take_nil; constructor|].
  destruct n as [|n]; simpl; [constructor|]. inversion Hx; subst. constructor. assumption.
Qed.

(** X18: [get_summary()] counts the companies and, summed over them, the
    processed quarters; [top_companies] has [min(10, companies)] entries,
    each a recorded company with its number of quarters, in non-increasing
    order of that number, and a company left out has no more quarters than
    any of them. *)
Theorem get_summary_spec (S : State) :
  let sm := get_summary S in
  sm_total_companies sm = size (processed S) /\
  sm_total_quarters sm = total_items (processed S) /\
  length (sm_top_companies sm) = Nat.min 10 (size (processed S)) /\
  Sorted quarters_ge (sm_top_companies sm) /\
  (forall x, In x (sm_top_companies sm) ->
     exists qs, processed S !! x.1 = Some qs /\ x.2 = size qs) /\
  (forall c qs, processed S !! c = Some qs ->
     In (c, size qs) (sm_top_companies sm) \/
     Forall (fun x => size qs <= x.2) (sm_top_companies sm)).
Proof.
  cbv zeta. split; [reflexivity|]. split; [apply summary_total_quarters|].
  unfold get_summary; cbn [sm_top_companies].
  set (cs := map (fun '(company, quarters) => (company, size quarters))
               (map_to_list (processed S))).
  pose proof (merge_sort_Permutation quarters_ge cs) as Hperm.
  pose proof (StronglySorted_merge_sort quarters_ge cs) as Hsorted.
  set (sorted := merge_sort quarters_ge cs) in *. clearbody sorted.
  assert (Hcs : forall x, In x cs <->
                  exists qs, processed S !! x.1 = Some qs /\ x.2 = size qs).
  { intros [c n]. unfold cs. rewrite in_map_iff. split.
    - intros [[c' qs] [[= <- <-] Hin]]. exists qs. split; [|reflexivity].
      apply elem_of_map_to_list, list_elem_of_In. exact Hin.
    - intros [qs [Hc Hn]]. simpl in Hc, Hn. subst n. exists (c, qs).
      split; [reflexivity|]. apply list_elem_of_In, elem_of_map_to_list. exact Hc. }
  split.
  { rewrite length_take, (Permutation_length Hperm). unfold cs.
    rewrite length_map, length_map_to_list. lia. }
  split; [apply Sorted_take, StronglySorted_Sorted, Hsorted|].
  split.
  { intros x Hx. apply Hcs, (Permutation_in _ Hperm).
    rewrite <- (take_drop 10 sorted). apply in_or_app. left. exact Hx. }
  intros c qs Hc.
  assert (Hin : In (c, size qs) sorted).
  { apply (Permutation_in _ (Permutation_sym Hperm)), Hcs. exists qs. split; auto. }
  destruct (in_take_drop 10 _ _ Hin) as [H|H]; [left; exact H|right].
  apply Forall_forall. intros y Hy.
  rewrite <- (take_drop 10 sorted) in Hsorted.
  exact (StronglySorted_app_1_elem_of quarters_ge _ _ y (c, size qs) Hsorted
           Hy (proj2 (list_elem_of_In _ _) H)).
Qed.

(** [self.state['stats']] agrees with [self.state['processed']] *)
Definition stats_synced (S : State) : Prop := stats S = update_stats (processed S).

Lemma total_items_empty : total_items ∅ = 0.
Proof. unfold total_items. rewrite map_fold_foldr, map_to_list_empty. reflexivity. Qed.

Lemma tracker_step_synced (S S' : State) :
  tracker_step S S' -> stats_synced S -> stats_synced S'.
Proof.
  unfold stats_synced. intros Hs HS. destruct Hs as [S c q now md|S items|S c|S|S rt now st].
  - reflexivity.
  - reflexivity.
  - unfold clear_company. destruct (processed S !! upper c); [reflexivity|exact HS].
  - unfold clear_all, empty_state, update_stats; simpl.
    rewrite total_items_empty, map_size_empty. reflexivity.
  - unfold record_run. destruct (String.eqb rt "full"); exact HS.
Qed.

(** X19: starting from a tracker without a state file, every sequence of
    [mark_processed], [mark_batch_processed], [clear_company], [clear_all]
    and [record_run] calls keeps [stats] equal to what [_update_stats]
    computes from [processed], so that [get_summary()] reports the same
    totals as [stats]. *)
Theorem tracker_stats_synced (S : State) :
  rtc tracker_step empty_state S ->
  stats S = update_stats (processed S) /\
  sm_total_quarters (get_summary S) = total_processed (stats S) /\
  sm_total_companies (get_summary S) = total_companies (stats S).
Proof.
  intros Hr.
  assert (Hs : stats_synced S).
  { assert (H0 : stats_synced empty_state).
    { unfold stats_synced, empty_state, update_stats; simpl.
      rewrite total_items_empty, map_size_empty. reflexivity. }
    revert H0. induction Hr as [x|x y z Hxy Hyz IH]; [auto|].
    intros Hx. apply IH, (tracker_step_synced x y Hxy Hx). }
  unfold stats_synced in Hs. rewrite Hs, summary_total_quarters. simpl.
  split; [reflexivity|]. split; reflexivity.
Qed.

Lemma tracker_stats_synced_witness :
  rtc tracker_step empty_state
    (record_run (st_mark_processed empty_state "tcs" "Q1_FY25" "2025-01-10" None)
       "full" "2025-01-11" None) /\
  stats (record_run (st_mark_processed empty_state "tcs" "Q1_FY25" "2025-01-10" None)
           "full" "2025-01-11" None) =
    update_stats (processed (record_run (st_mark_processed empty_state "tcs" "Q1_FY25"
                                            "2025-01-10" None) "full" "2025-01-11" None)).
Proof.
  assert (Hr : rtc tracker_step empty_state
    (record_run (st_mark_processed empty_state "tcs" "Q1_FY25" "2025-01-10" None)
       "full" "2025-01-11" None)).
  { eapply rtc_l; [apply ts_mark|]. apply rtc_once, ts_record_run. }
  split; [exact Hr|]. exact (proj1 (tracker_stats_synced _ Hr)).
Defined.

End TrackerQueryFacts.
